(** * NeuroAviaConsultant: a shallow embedding of [main.py]

    The service keeps two module-level globals, [total_requests_count] and
    [vector_db], builds a vector store once at start-up ([lifespan]) and
    serves three routes ([root], [ask_expert], [get_stats]).  Everything the
    program reaches over the network or through a library object (the HTTP
    client, the text splitter, the embedding provider, the vector store, the
    chat model, the clock) is a collaborator: an operation on the state of
    the outside world that either returns or raises. *)

From Stdlib Require Import List ZArith NArith Lia Bool String Ascii QArith.
From Stdlib Require Import DecimalString Sorted Permutation.
Import ListNotations.

(** ** Python values *)

Module Py.

(** A [str] is a sequence of Unicode code points. *)
Definition char := N.
Definition str := list char.

Fixpoint bytes_of (s : string) : list N :=
  match s with
  | EmptyString => []
  | String a r => N_of_ascii a :: bytes_of r
  end.

(** Literals are written as Rocq strings, which hold the UTF-8 bytes of
    the source text; [decode] turns them back into code points. *)
Fixpoint decode (need : nat) (acc : N) (bs : list N) : str :=
  match bs with
  | [] => []
  | b :: r =>
      match need with
      | S n =>
          let acc' := (acc * 64 + b mod 64)%N in
          match n with
          | O => acc' :: decode 0 0%N r
          | S _ => decode n acc' r
          end
      | O =>
          if (b <? 128)%N then b :: decode 0 0%N r
          else if (b <? 224)%N then decode 1 (b mod 32)%N r
          else if (b <? 240)%N then decode 2 (b mod 16)%N r
          else decode 3 (b mod 8)%N r
      end
  end.

Definition u (s : string) : str := decode 0 0%N (bytes_of s).

Definition nl : char := 10%N.

(** [str(n)] for an [int]. *)
Definition str_of_int (z : Z) : str :=
  u (NilZero.string_of_int (Z.to_int z)).

(** [ch.isspace()], as [str.strip()] uses it: the ASCII table of CPython
    and the code points of [_PyUnicode_IsWhitespace]. *)
Definition isspace (c : char) : bool :=
  ((9 <=? c) && (c <=? 13) || (28 <=? c) && (c <=? 32)
   || (c =? 133) || (c =? 160) || (c =? 5760)
   || (8192 <=? c) && (c <=? 8202)
   || (c =? 8232) || (c =? 8233) || (c =? 8239) || (c =? 8287)
   || (c =? 12288))%N.

Fixpoint lstrip (s : str) : str :=
  match s with
  | [] => []
  | c :: r => if isspace c then lstrip r else s
  end.

Definition rstrip (s : str) : str := rev (lstrip (rev s)).

(** [s.strip()] *)
Definition strip (s : str) : str := rstrip (lstrip s).

(** [sep.join(l)] *)
Fixpoint join (sep : str) (l : list str) : str :=
  match l with
  | [] => []
  | x :: r =>
      match r with
      | [] => x
      | _ :: _ => x ++ sep ++ join sep r
      end
  end.

(** No whitespace at either end; the empty string has none.  (Code point
    0 is not whitespace.) *)
Definition clean (s : str) : bool :=
  negb (isspace (hd 0%N s)) && negb (isspace (last s 0%N)).

(** [a == b] *)
Fixpoint str_eqb (a b : str) : bool :=
  match a, b with
  | [], [] => true
  | x :: a', y :: b' => (x =? y)%N && str_eqb a' b'
  | _, _ => false
  end.

Fixpoint take_while (p : char -> bool) (s : str) : str :=
  match s with
  | [] => []
  | c :: r => if p c then c :: take_while p r else []
  end.

Fixpoint strip_prefix (p s : str) : option str :=
  match p, s with
  | [], _ => Some s
  | _ :: _, [] => None
  | a :: p', b :: s' => if (a =? b)%N then strip_prefix p' s' else None
  end.

End Py.
Import Py.

(** ** The regular expression of [load_document_text]

    [re.search(r'/d/([a-zA-Z0-9-_]+)', url)]: the character class is the
    three ranges and the two literals [-] and [_]; the group is greedy and
    nothing follows it, so a match at a position takes the longest run. *)

Definition is_id_char (c : char) : bool :=
  ((97 <=? c) && (c <=? 122) || (65 <=? c) && (c <=? 90)
   || (48 <=? c) && (c <=? 57) || (c =? 45) || (c =? 95))%N.

Definition slash_d_slash : str := Eval vm_compute in u "/d/".

(** The match anchored at the start of [s]; the result is [group(1)]. *)
Definition match_here (s : str) : option str :=
  match strip_prefix slash_d_slash s with
  | Some r =>
      match take_while is_id_char r with
      | [] => None
      | c :: id => Some (c :: id)
      end
  | None => None
  end.

(** [re.search]: the leftmost position at which the pattern matches. *)
Fixpoint re_search (s : str) : option str :=
  match match_here s with
  | Some id => Some id
  | None =>
      match s with
      | [] => None
      | _ :: r => re_search r
      end
  end.

Definition export_prefix : str :=
  Eval vm_compute in u "https://docs.google.com/document/d/".

Definition export_suffix : str := Eval vm_compute in u "/export?format=txt".

(** [f"https://docs.google.com/document/d/{doc_id}/export?format=txt"] *)
Definition export_url (doc_id : str) : str :=
  export_prefix ++ doc_id ++ export_suffix.

(** ** Links with a document id

    [url] reads [pre], then [/d/], then a non-empty run [id] of characters
    of the class, then [post]. *)
Definition segment_at (url pre id post : str) : Prop :=
  url = pre ++ slash_d_slash ++ id ++ post
  /\ id <> []
  /\ forallb is_id_char id = true.

Definition has_segment (url : str) : Prop :=
  exists pre id post, segment_at url pre id post.

(** ** Data *)

(** What [httpx] hands back once redirects have been followed. *)
Record Response := { status_code : Z; text : str }.

(** [langchain]'s [Document]; the splitter is given no metadata. *)
Record Document := { page_content : str }.

Inductive Role := system | user.

Record Message := { role : Role; content : str }.

(** [completion.choices]: each choice carries [message.content], which the
    client types as optional. *)
Record Choice := { message_content : option str }.

(** The body of a reply, per route.  The markup of the landing page is
    constant but for the counter it shows, which is what is kept of it. *)
Inductive Body :=
| LandingPage (request_counter : str)
| Answer (answer : option str)
| Stats (total_requests : Z) (timestamp : str).

(** Instances of [Exception].  [ExternalError] stands for whatever a
    collaborator raises, with its [str(e)]. *)
Inductive Exc :=
| ValueError (msg : str)
| IndexError (msg : str)
| HTTPStatusError (r : Response)
| HTTPException (code : Z) (detail : str)
| ExternalError (msg : str).

Inductive Result (A : Type) :=
| Ok (a : A)
| Err (e : Exc).
Arguments Ok {A} a.
Arguments Err {A} e.

(** ** Collaborators

    Each operation takes the state of the outside world and returns either
    a value or an exception, together with the world it leaves behind.
    [World] is the state of everything outside the process; [Embeddings],
    [FAISS] and [Client] are the library objects the program holds and
    [Vector] is what an embedding is.  [API_KEY] and [BASE_URL] are what
    [env.str] read at import time. *)

Class Collaborators (World Embeddings FAISS Vector Client : Type) := {
  API_KEY : str;
  BASE_URL : str;
  (** [httpx.Client(follow_redirects=True).get(url)] *)
  client_get : str -> World -> Result Response * World;
  (** [str(e)] of the error [raise_for_status] builds *)
  HTTPStatusError_str : Response -> str;
  (** [RecursiveCharacterTextSplitter(chunk_size, chunk_overlap)
      .create_documents(texts)] *)
  create_documents : Z -> Z -> list str -> World -> Result (list Document) * World;
  (** [OpenAIEmbeddings(api_key, base_url)] *)
  OpenAIEmbeddings : str -> str -> World -> Result Embeddings * World;
  embed_documents : Embeddings -> list str -> World -> Result (list Vector) * World;
  (** the store [FAISS.from_texts] assembles from texts and their vectors *)
  faiss_index : list str -> list Vector -> Embeddings -> World -> Result FAISS * World;
  (** the store's own embedding function, applied to a query *)
  embed_query : FAISS -> str -> World -> Result Vector * World;
  similarity_search_by_vector : FAISS -> Vector -> Z -> World -> Result (list Document) * World;
  (** [OpenAI(api_key, base_url)] *)
  OpenAI : str -> str -> World -> Result Client * World;
  (** [client.chat.completions.create(model, messages, temperature)
      .choices] *)
  chat_completions_create : Client -> str -> list Message -> Q -> World -> Result (list Choice) * World;
  (** [datetime.now().isoformat()] *)
  now_isoformat : World -> Result str * World
}.

Section Service.

Context {World Embeddings FAISS Vector Client : Type}.
Context {C : Collaborators World Embeddings FAISS Vector Client}.

(** ** State, trace and the monad of the program *)

(** Calls that leave the process, with their arguments. *)
Inductive Call :=
| HttpGet (url : str)
| SplitDocuments (chunk_size chunk_overlap : Z) (texts : list str)
| NewEmbeddings (api_key base_url : str)
| EmbedDocuments (texts : list str)
| IndexBuild (texts : list str) (vectors : list Vector)
| EmbedQuery (db : FAISS) (query : str)
| IndexSearch (db : FAISS) (embedding : Vector) (k : Z)
| NewClient (api_key base_url : str)
| ChatCompletion (model : str) (messages : list Message) (temperature : Q)
| ClockNow.

(** What happened, oldest first: a call was made, an exception was
    raised (by a collaborator or by a [raise] statement). *)
Inductive Entry :=
| Called (c : Call)
| Raised (e : Exc).

Record State := {
  total_requests_count : Z;
  vector_db : option FAISS;
  stdout : list str;
  world : World;
  trace : list Entry
}.

Definition M (A : Type) : Type := State -> Result A * State.

Definition ret {A} (a : A) : M A := fun s => (Ok a, s).

Definition bind {A B} (m : M A) (k : A -> M B) : M B :=
  fun s =>
    match m s with
    | (Ok a, s1) => k a s1
    | (Err e, s1) => (Err e, s1)
    end.

Definition log (t : list Entry) (s : State) : State :=
  {| total_requests_count := total_requests_count s;
     vector_db := vector_db s;
     stdout := stdout s;
     world := world s;
     trace := trace s ++ t |}.

Definition raise {A} (e : Exc) : M A :=
  fun s => (Err e, log [Raised e] s).

(** [try: m  except Exception as e: h e] *)
Definition try_except {A} (m : M A) (h : Exc -> M A) : M A :=
  fun s =>
    match m s with
    | (Ok a, s1) => (Ok a, s1)
    | (Err e, s1) => h e s1
    end.

Definition call {A} (c : Call) (f : World -> Result A * World) : M A :=
  fun s =>
    let (r, w) := f (world s) in
    let s1 := {| total_requests_count := total_requests_count s;
                 vector_db := vector_db s;
                 stdout := stdout s;
                 world := w;
                 trace := trace s ++ [Called c] |} in
    match r with
    | Ok a => (Ok a, s1)
    | Err e => (Err e, log [Raised e] s1)
    end.

Definition print (line : str) : M unit :=
  fun s =>
    (Ok tt, {| total_requests_count := total_requests_count s;
               vector_db := vector_db s;
               stdout := stdout s ++ [line];
               world := world s;
               trace := trace s |}).

Definition get_total_requests_count : M Z :=
  fun s => (Ok (total_requests_count s), s).

Definition set_total_requests_count (n : Z) : M unit :=
  fun s =>
    (Ok tt, {| total_requests_count := n;
               vector_db := vector_db s;
               stdout := stdout s;
               world := world s;
               trace := trace s |}).

Definition get_vector_db : M (option FAISS) :=
  fun s => (Ok (vector_db s), s).

Definition set_vector_db (db : option FAISS) : M unit :=
  fun s =>
    (Ok tt, {| total_requests_count := total_requests_count s;
               vector_db := db;
               stdout := stdout s;
               world := world s;
               trace := trace s |}).

Notation "x <- m ;; k" := (bind m (fun x => k))
  (at level 100, m at next level, right associativity).
Notation "m ;; k" := (bind m (fun _ => k))
  (at level 100, right associativity).

Definition colon_space : str := Eval vm_compute in u ": ".

(** [str(e)] *)
Definition exc_str (e : Exc) : str :=
  match e with
  | ValueError msg => msg
  | IndexError msg => msg
  | HTTPStatusError r => HTTPStatusError_str r
  | HTTPException code detail => str_of_int code ++ colon_space ++ detail
  | ExternalError msg => msg
  end.

(** [response.is_success]: the status is 2xx. *)
Definition is_success (r : Response) : bool :=
  ((200 <=? status_code r) && (status_code r <=? 299))%Z.

(** [response.raise_for_status()] *)
Definition raise_for_status (r : Response) : M unit :=
  if is_success r
  then ret tt
  else raise (HTTPStatusError r).

(** ** [load_document_text] *)

Definition invalid_link : str := Eval vm_compute in u "Некорректная ссылка на Google Doc".

Definition load_document_text (url : str) : M str :=
  match re_search url with
  | None => raise (ValueError invalid_link)
  | Some doc_id =>
      response <- call (HttpGet (export_url doc_id)) (client_get (export_url doc_id)) ;;
      raise_for_status response ;;
      ret (text response)
  end.

(** ** [lifespan] *)

Definition doc_url : str :=
  Eval vm_compute in u "https://docs.google.com/document/d/11MU3SnVbwL_rM-5fIC14Lc3XnbAV4rY1Zd_kpcMuH4Y".

(** The id inside [doc_url]. *)
Definition doc_id : str := Eval vm_compute in u "11MU3SnVbwL_rM-5fIC14Lc3XnbAV4rY1Zd_kpcMuH4Y".

(** [FAISS.from_documents(documents, embedding)]: the texts are embedded,
    then the store is assembled. *)
Definition FAISS_from_documents (documents : list Document) (embedding : Embeddings) : M FAISS :=
  let texts := map page_content documents in
  vectors <- call (EmbedDocuments texts) (embed_documents embedding texts) ;;
  call (IndexBuild texts vectors) (faiss_index texts vectors embedding).

Definition loaded_line : str :=
  Eval vm_compute in u "✅ База знаний успешно загружена и проиндексирована.".

(** The body of the [try] block of [lifespan]. *)
Definition lifespan_try : M unit :=
  raw_text <- load_document_text doc_url ;;
  source_chunks <- call (SplitDocuments 1000 200 [raw_text])
                        (create_documents 1000 200 [raw_text]) ;;
  embeddings <- call (NewEmbeddings API_KEY BASE_URL)
                     (OpenAIEmbeddings API_KEY BASE_URL) ;;
  db <- FAISS_from_documents source_chunks embeddings ;;
  set_vector_db (Some db) ;;
  print loaded_line.

Definition startup_error_prefix : str :=
  Eval vm_compute in u "❌ Ошибка при инициализации базы знаний: ".

(** [f"❌ Ошибка при инициализации базы знаний: {e}"] *)
Definition startup_error_line (e : Exc) : str :=
  startup_error_prefix ++ exc_str e.

Definition lifespan_except (e : Exc) : M unit :=
  print (startup_error_line e).

(** [lifespan] up to its [yield]. *)
Definition loading_line : str := Eval vm_compute in u "🚀 Загрузка базы знаний...".

Definition lifespan_startup : M unit :=
  print loading_line ;;
  try_except lifespan_try lifespan_except.

Definition stopping_line : str :=
  Eval vm_compute in u "🛑 Завершение работы приложения...".

Definition stopped_line : str :=
  Eval vm_compute in u "✅ Работа приложения завершена.".

(** [lifespan] after its [yield]. *)
Definition lifespan_shutdown : M unit :=
  print stopping_line ;;
  db <- get_vector_db ;;
  match db with
  | Some _ => set_vector_db None
  | None => ret tt
  end ;;
  print stopped_line.

(** ** Routes *)

Record QuestionRequest := { question : str }.

Definition root : M Body :=
  n <- get_total_requests_count ;;
  ret (LandingPage (str_of_int n)).

(** [vector_db.similarity_search(query, k)]: the query is embedded and the
    store searched with the vector. *)
Definition similarity_search (db : FAISS) (query : str) (k : Z) : M (list Document) :=
  embedding <- call (EmbedQuery db query) (embed_query db query) ;;
  call (IndexSearch db embedding k) (similarity_search_by_vector db embedding k).

Definition make_context (docs : list Document) : str :=
  join [nl; nl] (map (fun doc => strip (page_content doc)) docs).

Definition system_prompt : str :=
  Eval vm_compute in u "Вы — сертифицированный эксперт по страхованию ответственности аэропортов. "
  ++ u "Говорите от первого лица как практикующий специалист. "
  ++ u "СТРОГО ЗАПРЕЩЕНО упоминать источники информации (никаких 'согласно документу' или 'в базе знаний'). "
  ++ u "Используйте ТОЛЬКО факты из контекста.".

Definition context_label : str := Eval vm_compute in u "Контекст:".

Definition question_label : str := Eval vm_compute in u "Вопрос клиента:".

(** The f-string of [user_prompt]: label, newline, context, blank line,
    label, newline, question. *)
Definition make_user_prompt (context question : str) : str :=
  context_label ++ [nl] ++ context ++ [nl; nl]
  ++ question_label ++ [nl] ++ question.

Definition make_messages (context question : str) : list Message :=
  [ {| role := system; content := system_prompt |};
    {| role := user; content := make_user_prompt context question |} ].

(** The literal [0.2]. *)
Definition temperature : Q := 2 # 10.

Definition model : str := Eval vm_compute in u "gpt-4o-mini".

Definition index_out_of_range : str :=
  Eval vm_compute in u "list index out of range".

(** [choices[0]] *)
Definition first_choice (choices : list Choice) : M Choice :=
  match choices with
  | c :: _ => ret c
  | [] => raise (IndexError index_out_of_range)
  end.

(** The body of the [try] block of [ask_expert]. *)
Definition ask_try (db : FAISS) (request : QuestionRequest) : M Body :=
  docs <- similarity_search db (question request) 4 ;;
  let context := make_context docs in
  client <- call (NewClient API_KEY BASE_URL) (OpenAI API_KEY BASE_URL) ;;
  let messages := make_messages context (question request) in
  choices <- call (ChatCompletion model messages temperature)
                  (chat_completions_create client model messages temperature) ;;
  c <- first_choice choices ;;
  ret (Answer (message_content c)).

Definition processing_prefix : str :=
  Eval vm_compute in u "Ошибка обработки: ".

(** [f"Ошибка обработки: {str(e)}"] *)
Definition processing_detail (e : Exc) : str :=
  processing_prefix ++ exc_str e.

Definition ask_except (e : Exc) : M Body :=
  raise (HTTPException 500 (processing_detail e)).

Definition not_ready_detail : str := Eval vm_compute in u "База знаний еще загружается".

Definition ask_expert (request : QuestionRequest) : M Body :=
  n <- get_total_requests_count ;;
  set_total_requests_count (n + 1) ;;
  db <- get_vector_db ;;
  match db with
  | None => raise (HTTPException 503 not_ready_detail)
  | Some db => try_except (ask_try db request) ask_except
  end.

Definition get_stats : M Body :=
  n <- get_total_requests_count ;;
  timestamp <- call ClockNow now_isoformat ;;
  ret (Stats n timestamp).

(** ** The running application

    No handler awaits anything, so the event loop runs each one to
    completion before the next: concurrent requests are served in some
    order, one after the other.  A handler that raises ends its own
    request only. *)

Inductive Request :=
| GetRoot
| PostAsk (request : QuestionRequest)
| GetStats.

Definition handle (r : Request) : M Body :=
  match r with
  | GetRoot => root
  | PostAsk request => ask_expert request
  | GetStats => get_stats
  end.

Fixpoint serve (reqs : list Request) (s : State) : list (Result Body) * State :=
  match reqs with
  | [] => ([], s)
  | r :: rest =>
      let (out, s1) := handle r s in
      let (outs, s2) := serve rest s1 in
      (out :: outs, s2)
  end.

(** The module as imported: both globals at their initial values. *)
Definition initial_state (w : World) : State :=
  {| total_requests_count := 0;
     vector_db := None;
     stdout := [];
     world := w;
     trace := [] |}.

(** The state in which the application starts taking requests. *)
Definition started (w : World) : State :=
  snd (lifespan_startup (initial_state w)).

(** Start-up, the requests, shut-down. *)
Definition run_app (reqs : list Request) (w : World) : list (Result Body) * State :=
  let (_, s0) := lifespan_startup (initial_state w) in
  let (outs, s1) := serve reqs s0 in
  let (_, s2) := lifespan_shutdown s1 in
  (outs, s2).

(** ** Reading the trace *)

(** How many calls of a kind a stretch of the trace holds. *)
Definition calls (p : Call -> bool) (t : list Entry) : nat :=
  List.length (filter (fun e => match e with
                                | Called c => p c
                                | Raised _ => false
                                end) t).

Definition is_http_get (c : Call) : bool :=
  match c with HttpGet _ => true | _ => false end.

Definition is_embed_query (c : Call) : bool :=
  match c with EmbedQuery _ _ => true | _ => false end.

Definition is_index_search (c : Call) : bool :=
  match c with IndexSearch _ _ _ => true | _ => false end.

Definition is_chat_completion (c : Call) : bool :=
  match c with ChatCompletion _ _ _ => true | _ => false end.

(** What a route may add to the trace when the store is [db]: nothing that
    splits, embeds or indexes documents, and of the store only a query
    embedding and a search with [k = 4], on [db] itself. *)
Definition query_time_entry (db : option FAISS) (e : Entry) : Prop :=
  match e with
  | Called (SplitDocuments _ _ _) => False
  | Called (EmbedDocuments _) => False
  | Called (IndexBuild _ _) => False
  | Called (EmbedQuery db' _) => db = Some db'
  | Called (IndexSearch db' _ k) => db = Some db' /\ k = 4%Z
  | _ => True
  end.

(** A splitter configured with anything but 1000 and 200 would show here. *)
Definition split_1000_200 (e : Entry) : Prop :=
  match e with
  | Called (SplitDocuments chunk_size chunk_overlap _) =>
      chunk_size = 1000%Z /\ chunk_overlap = 200%Z
  | _ => True
  end.

Definition is_ask (r : Request) : bool :=
  match r with
  | PostAsk _ => true
  | _ => false
  end.

(** The state once [ask_expert] has counted the request. *)
Definition increment (s : State) : State :=
  {| total_requests_count := total_requests_count s + 1;
     vector_db := vector_db s;
     stdout := stdout s;
     world := world s;
     trace := trace s |}.

(** The calls a route can make: the four of [ask_expert] and the clock of
    [get_stats]. *)
Definition route_entry (e : Entry) : Prop :=
  match e with
  | Called (EmbedQuery _ _) => True
  | Called (IndexSearch _ _ _) => True
  | Called (NewClient _ _) => True
  | Called (ChatCompletion _ _ _) => True
  | Called ClockNow => True
  | Called _ => False
  | Raised _ => True
  end.

(** What is left of them while there is no store: the clock. *)
Definition idle_entry (e : Entry) : Prop :=
  match e with
  | Called ClockNow => True
  | Called _ => False
  | Raised _ => True
  end.

(** The state [lifespan] leaves behind when it is done. *)
Definition stopped (s : State) : State :=
  {| total_requests_count := total_requests_count s;
     vector_db := None;
     stdout := stdout s ++ [stopping_line; stopped_line];
     world := world s;
     trace := trace s |}.

End Service.

(** ** The vector index of the specification

    The store itself is [langchain]'s FAISS wrapper, which [main.py] only
    calls.  What follows is the index the specification describes for it. *)

Module VectorIndex.

(** Modelled from the spec: the embedding vector, absent from src/.  "A
    fixed-length ordered sequence of floating-point numbers", with the
    numbers read as the rationals they denote. *)
Definition EmbeddingVector := list Q.

(** Modelled from the spec: the chunk, absent from src/.
    "[{text: string, sequence_index: integer}]". *)
Record Chunk := { chunk_text : str; sequence_index : Z }.

(** Modelled from the spec: the indexed entry, absent from src/.
    "[{vector: EmbeddingVector, chunk: Chunk}]". *)
Record IndexedEntry := { vector : EmbeddingVector; chunk : Chunk }.

(** Modelled from the spec: the index itself, absent from src/.  "An
    immutable-after-build collection of IndexedEntry", kept in insertion
    order. *)
Definition VectorIndex := list IndexedEntry.

(** Modelled from the spec: [build], absent from src/.  "Constructs a
    fresh, immutable index in one atomic step; empty input yields a valid
    empty index." *)
Definition build (entries : list IndexedEntry) : VectorIndex := entries.

(** Modelled from the spec: the query result, absent from src/.  "An
    ordered sequence of (Chunk, distance) pairs, nearest first." *)
Definition QueryResult := list (Chunk * Q).

(** What a query ends in: a result, or the fatal configuration error of a
    dimensionality mismatch. *)
Inductive Outcome :=
| Found (r : QueryResult)
| ConfigurationError.

Section Metric.

(** "A fixed similarity metric"; floating-point numbers are read as the
    rationals they denote. *)
Variable distance : EmbeddingVector -> EmbeddingVector -> Q.

Definition same_dimension (index : VectorIndex) (v : EmbeddingVector) : bool :=
  forallb (fun e => Nat.eqb (List.length (vector e)) (List.length v)) index.

(** A scored position that goes in front of another: nearer, or as near
    and inserted earlier. *)
Definition ahead (x y : nat * Q) : Prop :=
  snd x < snd y \/ (snd x == snd y /\ (fst x < fst y)%nat).

(** Insertion of a scored position before the first strictly farther one:
    an equal distance keeps the earlier position in front. *)
Fixpoint insert (x : nat * Q) (l : list (nat * Q)) : list (nat * Q) :=
  match l with
  | [] => [x]
  | y :: r => if Qle_bool (snd x) (snd y) then x :: y :: r else y :: insert x r
  end.

Fixpoint sort (l : list (nat * Q)) : list (nat * Q) :=
  match l with
  | [] => []
  | x :: r => insert x (sort r)
  end.

Definition default_entry : IndexedEntry :=
  {| vector := []; chunk := {| chunk_text := []; sequence_index := 0 |} |}.

Definition entry_at (index : VectorIndex) (p : nat) : IndexedEntry :=
  nth p index default_entry.

Definition score (index : VectorIndex) (v : EmbeddingVector) (p : nat) : Q :=
  distance v (vector (entry_at index p)).

(** Every position of the index with its distance to [v], nearest first. *)
Definition ranking (index : VectorIndex) (v : EmbeddingVector) : list (nat * Q) :=
  sort (map (fun p => (p, score index v p)) (seq 0 (List.length index))).

Definition hit (index : VectorIndex) (v : EmbeddingVector) (p : nat) : Chunk * Q :=
  (chunk (entry_at index p), score index v p).

(** Modelled from the spec: [query], absent from src/.  The brute-force
    linear scan the specification names as the reference algorithm:
    "returns the k entries with smallest distance to vector; ties broken by
    original insertion order; k is clamped to the index size if larger;
    k <= 0 returns an empty result; dimensionality mismatch is a fatal
    configuration error". *)
Definition query (index : VectorIndex) (v : EmbeddingVector) (k : Z) : Outcome :=
  if same_dimension index v
  then Found (map (fun x => hit index v (fst x))
                  (firstn (Z.to_nat k) (ranking index v)))
  else ConfigurationError.

(** Position [p] is to be returned before position [q]. *)
Definition before (index : VectorIndex) (v : EmbeddingVector) (p q : nat) : Prop :=
  score index v p < score index v q
  \/ (score index v p == score index v q /\ (p < q)%nat).

(** Modelled from the spec: the contract of [query], absent from src/, for
    an answer made of the entries at positions [ps]: entries of the index,
    each once; as many as [k] clamped to the index size; nearest first with
    ties in insertion order; nothing left out is nearer than something
    returned. *)
Record picks (index : VectorIndex) (v : EmbeddingVector) (k : Z) (ps : list nat) : Prop := {
  picks_valid : forall p, In p ps -> (p < List.length index)%nat;
  picks_length : List.length ps = Nat.min (Z.to_nat k) (List.length index);
  picks_sorted : StronglySorted (before index v) ps;
  picks_nearest : forall p q, In p ps -> (q < List.length index)%nat -> ~ In q ps ->
                              before index v p q
}.

(** Modelled from the spec: what an answer of [query] has to be, absent
    from src/: the entries at positions that meet [picks], each with its
    distance, or the configuration error when the dimensions differ. *)
Definition meets_contract (index : VectorIndex) (v : EmbeddingVector) (k : Z) (o : Outcome) : Prop :=
  if same_dimension index v
  then exists ps, picks index v k ps /\ o = Found (map (hit index v) ps)
  else o = ConfigurationError.

End Metric.

(** Squared Euclidean distance, the metric of a flat L2 index. *)
Fixpoint l2 (a b : EmbeddingVector) : Q :=
  match a, b with
  | x :: a', y :: b' => (x - y) * (x - y) + l2 a' b'
  | _, _ => 0
  end.

End VectorIndex.

(** ** Stand-ins for the collaborators

    A scripted outside world for running the program on concrete inputs:
    the document server answers with [source], the embedding provider is up
    or down, the chat model answers with [reply], the clock ticks. *)

Module Fake.

Record Outside := {
  source : Result Response;
  provider_up : bool;
  reply : Result (list Choice);
  ticks : Z
}.

(** The defaults of [env.str]. *)
Definition your_key : str := Eval vm_compute in u "YOUR-KEY".

Definition your_url : str := Eval vm_compute in u "YOUR-URL-ENDPOINT".

Definition unreachable : str := Eval vm_compute in u "embedding provider unreachable".

Definition mismatch : str := Eval vm_compute in u "dimension mismatch".

Definition refused : str := Eval vm_compute in u "connection refused".

Definition rate_limit : str := Eval vm_compute in u "rate limit".

Definition status_prefix : str := Eval vm_compute in u "status ".

(** A document with blanks at both ends, and the same without them. *)
Definition airports : str := Eval vm_compute in u "  Airports are insured.  ".

Definition airports_stripped : str := Eval vm_compute in u "Airports are insured.".

Definition hi : str := Eval vm_compute in u "hi".

Definition yes : str := Eval vm_compute in u "Yes.".

Definition embed (t : str) : VectorIndex.EmbeddingVector :=
  [inject_Z (Z.of_nat (List.length t)); 1].

Definition embedding_call {A} (a : A) (w : Outside) : Result A * Outside :=
  if provider_up w
  then (Ok a, w)
  else (Err (ExternalError unreachable), w).

Fixpoint entries (n : Z) (texts : list str) (vectors : list VectorIndex.EmbeddingVector)
  : list VectorIndex.IndexedEntry :=
  match texts, vectors with
  | t :: texts', v :: vectors' =>
      {| VectorIndex.vector := v;
         VectorIndex.chunk := {| VectorIndex.chunk_text := t;
                                 VectorIndex.sequence_index := n |} |}
      :: entries (n + 1) texts' vectors'
  | _, _ => []
  end.

Definition search (db : VectorIndex.VectorIndex) (v : VectorIndex.EmbeddingVector) (k : Z)
  : Result (list Document) :=
  match VectorIndex.query VectorIndex.l2 db v k with
  | VectorIndex.Found r =>
      Ok (map (fun h => {| page_content := VectorIndex.chunk_text (fst h) |}) r)
  | VectorIndex.ConfigurationError =>
      Err (ExternalError mismatch)
  end.

(** What the document server answers for any other address. *)
Definition not_found_text : str := Eval vm_compute in u "Not Found".

Definition not_found : Response := {| status_code := 404; text := not_found_text |}.

(** A splitter for short texts: one chunk per text, stripped as
    [RecursiveCharacterTextSplitter] strips its chunks, none for a text
    that is all whitespace. *)
Definition split_whole (texts : list str) : list Document :=
  map (fun t => {| page_content := t |})
      (filter (fun t => negb (str_eqb t [])) (map strip texts)).

Definition tick (w : Outside) : Outside :=
  {| source := source w; provider_up := provider_up w;
     reply := reply w; ticks := ticks w + 1 |}.

#[export] Instance collaborators
  : Collaborators Outside unit VectorIndex.VectorIndex VectorIndex.EmbeddingVector unit := {|
  API_KEY := your_key;
  BASE_URL := your_url;
  client_get := fun url w =>
    if str_eqb url (export_url doc_id) then (source w, w) else (Ok not_found, w);
  HTTPStatusError_str := fun r => status_prefix ++ str_of_int (status_code r);
  create_documents := fun _ _ texts w => (Ok (split_whole texts), w);
  OpenAIEmbeddings := fun _ _ w => (Ok tt, w);
  embed_documents := fun _ texts => embedding_call (map embed texts);
  faiss_index := fun texts vectors _ w =>
    (Ok (VectorIndex.build (entries 0 texts vectors)), w);
  embed_query := fun _ q => embedding_call (embed q);
  similarity_search_by_vector := fun db v k w => (search db v k, w);
  OpenAI := fun _ _ w => (Ok tt, w);
  chat_completions_create := fun _ _ _ _ w => (reply w, w);
  now_isoformat := fun w => (Ok (str_of_int (ticks w)), tick w)
|}.

Definition doc (t : str) : Response := {| status_code := 200; text := t |}.

Definition says (t : str) : Result (list Choice) :=
  Ok [ {| message_content := Some t |} ].

(** Document served, provider up, model answering. *)
Definition healthy : Outside :=
  {| source := Ok (doc airports);
     provider_up := true;
     reply := says yes;
     ticks := 0 |}.

(** The document server refuses. *)
Definition no_document : Outside :=
  {| source := Err (ExternalError refused);
     provider_up := true;
     reply := says yes;
     ticks := 0 |}.

(** The document is served, then the embedding provider goes down. *)
Definition provider_down (w : Outside) : Outside :=
  {| source := source w; provider_up := false;
     reply := reply w; ticks := ticks w |}.

(** The chat model fails. *)
Definition model_down (w : Outside) : Outside :=
  {| source := source w; provider_up := provider_up w;
     reply := Err (ExternalError rate_limit); ticks := ticks w |}.

Definition FakeState : Type :=
  @State Outside VectorIndex.VectorIndex VectorIndex.EmbeddingVector.

Definition fresh (w : Outside) : FakeState := initial_state w.

Definition with_world (w : Outside) (s : FakeState) : FakeState :=
  {| total_requests_count := total_requests_count s;
     vector_db := vector_db s;
     stdout := stdout s;
     world := w;
     trace := trace s |}.

Definition asks (q : str) : QuestionRequest := {| question := q |}.

(** The application after a start-up that worked, and after one that did
    not. *)
Definition ready : FakeState := started healthy.

Definition failed : FakeState := started no_document.

Definition the_document : Document := {| page_content := airports_stripped |}.

Definition the_store : VectorIndex.VectorIndex :=
  VectorIndex.build (entries 0 [airports_stripped] [embed airports_stripped]).

(** A document as no splitter would leave it, and a link to a document
    the server does not have. *)
Definition padded_document : Document := {| page_content := airports |}.

Definition other_id : str := Eval vm_compute in u "some-other_doc".

Definition other_link : str :=
  Eval vm_compute in u "https://docs.google.com/document/d/some-other_doc/edit".

(** A link without a document id. *)
Definition plain_link : str := Eval vm_compute in u "https://example.com/doc".

(** The index of three chunks at [1,0], [0,1] and [1,1], and the query at
    [0.9,0.1]. *)
Definition chunk_of (n : Z) : VectorIndex.Chunk :=
  {| VectorIndex.chunk_text := str_of_int n; VectorIndex.sequence_index := n |}.

Definition three_chunks : VectorIndex.VectorIndex :=
  VectorIndex.build
    [ {| VectorIndex.vector := [1; 0]; VectorIndex.chunk := chunk_of 0 |};
      {| VectorIndex.vector := [0; 1]; VectorIndex.chunk := chunk_of 1 |};
      {| VectorIndex.vector := [1; 1]; VectorIndex.chunk := chunk_of 2 |} ].

Definition near_first : VectorIndex.EmbeddingVector := [9 # 10; 1 # 10].

(** The chat model answers, with no choice in the answer. *)
Definition no_choices (w : Outside) : Outside :=
  {| source := source w; provider_up := provider_up w;
     reply := Ok []; ticks := ticks w |}.

(** What follows the id in a link copied from the editor. *)
Definition edit_suffix : str := Eval vm_compute in u "/edit?usp=sharing".

End Fake.

(** * Properties *)

(** ** The texts of the program *)

Lemma loading_line_text : loading_line = u "🚀 Загрузка базы знаний...".
Proof. vm_compute. reflexivity. Qed.

Lemma startup_error_prefix_text :
  startup_error_prefix = u "❌ Ошибка при инициализации базы знаний: ".
Proof. vm_compute. reflexivity. Qed.

Lemma invalid_link_text : invalid_link = u "Некорректная ссылка на Google Doc".
Proof. vm_compute. reflexivity. Qed.

Lemma export_url_text :
  forall id,
    export_url id
    = u "https://docs.google.com/document/d/" ++ id ++ u "/export?format=txt".
Proof.
  intros id. unfold export_url.
  assert (E1 : export_prefix = u "https://docs.google.com/document/d/")
    by (vm_compute; reflexivity).
  assert (E2 : export_suffix = u "/export?format=txt") by (vm_compute; reflexivity).
  rewrite E1, E2. reflexivity.
Qed.




Section Properties.

Context {World Embeddings FAISS Vector Client : Type}.
Context {C : Collaborators World Embeddings FAISS Vector Client}.

Local Abbreviation State := (@State World FAISS Vector).
Local Abbreviation Entry := (@Entry FAISS Vector).

Local Open Scope Z_scope.

(** ** Running the program symbolically *)

Ltac unfold_program :=
  cbv beta delta [ask_expert ask_try ask_except similarity_search first_choice
                  root get_stats handle
                  lifespan_startup lifespan_try lifespan_except lifespan_shutdown
                  FAISS_from_documents load_document_text raise_for_status
                  bind ret raise try_except call print log
                  get_total_requests_count set_total_requests_count
                  get_vector_db set_vector_db] in *.

(** Case analysis on the outcome of the next collaborator call. *)
Ltac next_call :=
  match goal with
  | |- context [match ?x with pair _ _ => _ end] =>
      match type of x with
      | (Result _ * World)%type => destruct x as [[?|?] ?] eqn:?
      end
  end; cbn [fst snd total_requests_count vector_db stdout world trace].

Ltac open_program :=
  unfold_program; cbn [fst snd total_requests_count vector_db stdout world trace].

Ltac run := open_program; repeat next_call.

Lemma ask_expert_rejects :
  forall (request : QuestionRequest) (s : State),
    vector_db s = None ->
    ask_expert request s
    = (Err (HTTPException 503 not_ready_detail),
       log [Raised (HTTPException 503 not_ready_detail)] (increment s)).
Proof.
  intros request s H. unfold increment. run. rewrite H. reflexivity.
Qed.

(** C1. A question asked while [vector_db] is [None] is answered with
    [HTTPException 503]; the handler makes no call at all, so no similarity
    query is attempted, and the outside world is left as it was. *)
Theorem ask_expert_not_ready :
  forall (request : QuestionRequest) (s : State),
    vector_db s = None ->
    exists s',
      ask_expert request s = (Err (HTTPException 503 not_ready_detail), s')
      /\ trace s' = trace s ++ [Raised (HTTPException 503 not_ready_detail)]
      /\ world s' = world s
      /\ vector_db s' = None.
Proof.
  intros request s H.
  rewrite (ask_expert_rejects request s H).
  eexists. repeat split; try reflexivity. exact H.
Qed.

Ltac split_choices :=
  repeat match goal with
         | |- context [match ?l with [] => _ | _ :: _ => _ end] => destruct l
         end;
  cbn [fst snd total_requests_count vector_db stdout world trace].

(** ** Frame facts *)

Lemma ask_try_frame :
  forall db request s,
    vector_db (snd (ask_try db request s)) = vector_db s
    /\ total_requests_count (snd (ask_try db request s)) = total_requests_count s
    /\ stdout (snd (ask_try db request s)) = stdout s.
Proof.
  intros. run; split_choices; auto.
Qed.

(** [ask_expert] on a ready index, in terms of its [try] block. *)
Lemma ask_expert_ready :
  forall request s db,
    vector_db s = Some db ->
    ask_expert request s =
      match ask_try db request (increment s) with
      | (Ok b, s1) => (Ok b, s1)
      | (Err e, s1) =>
          (Err (HTTPException 500 (processing_detail e)),
           log [Raised (HTTPException 500 (processing_detail e))] s1)
      end.
Proof.
  intros request s db H.
  unfold ask_expert, bind, get_total_requests_count, set_total_requests_count,
    get_vector_db, try_except, ask_except, raise, increment.
  cbn [fst snd total_requests_count vector_db stdout world trace].
  rewrite H. reflexivity.
Qed.

Lemma ask_expert_count :
  forall request s,
    total_requests_count (snd (ask_expert request s)) = total_requests_count s + 1.
Proof.
  intros request s.
  destruct (vector_db s) as [db|] eqn:H.
  - rewrite (ask_expert_ready request s db H).
    pose proof (ask_try_frame db request (increment s)) as (_ & Hc & _).
    destruct (ask_try db request (increment s)) as [[b|e] s1]; cbn in *; exact Hc.
  - run. rewrite H. reflexivity.
Qed.

Lemma ask_expert_vector_db :
  forall request s,
    vector_db (snd (ask_expert request s)) = vector_db s.
Proof.
  intros request s.
  destruct (vector_db s) as [db|] eqn:H.
  - rewrite (ask_expert_ready request s db H).
    pose proof (ask_try_frame db request (increment s)) as (Hd & _ & _).
    destruct (ask_try db request (increment s)) as [[b|e] s1]; cbn in *;
      rewrite Hd; exact H.
  - run. rewrite H. reflexivity.
Qed.

Lemma handle_vector_db :
  forall r s, vector_db (snd (handle r s)) = vector_db s.
Proof.
  intros [|request|] s.
  - reflexivity.
  - apply ask_expert_vector_db.
  - run; reflexivity.
Qed.

Lemma handle_count :
  forall r s,
    total_requests_count (snd (handle r s))
    = total_requests_count s + (if is_ask r then 1 else 0).
Proof.
  intros [|request|] s; cbn [is_ask handle].
  - cbn. lia.
  - apply ask_expert_count.
  - run; cbn; lia.
Qed.

Lemma serve_cons :
  forall r rest s,
    serve (r :: rest) s =
      (fst (handle r s) :: fst (serve rest (snd (handle r s))),
       snd (serve rest (snd (handle r s)))).
Proof.
  intros. cbn [serve].
  destruct (handle r s) as [out s1]. cbn [fst snd].
  destruct (serve rest s1) as [outs s2]. reflexivity.
Qed.

Lemma serve_vector_db :
  forall reqs s, vector_db (snd (serve reqs s)) = vector_db s.
Proof.
  induction reqs as [|r rest IH]; intros s.
  - reflexivity.
  - rewrite serve_cons. cbn [snd]. rewrite IH. apply handle_vector_db.
Qed.

Lemma serve_count :
  forall reqs s,
    total_requests_count (snd (serve reqs s))
    = total_requests_count s + Z.of_nat (List.length (filter is_ask reqs)).
Proof.
  induction reqs as [|r rest IH]; intros s.
  - cbn. lia.
  - rewrite serve_cons. cbn [snd]. rewrite IH, handle_count.
    cbn [filter]. destruct (is_ask r); cbn [List.length]; lia.
Qed.

(** ** What the trace gains *)

Ltac trace_delta :=
  repeat rewrite <- app_assoc; cbn [app];
  eexists; split; [reflexivity | repeat constructor; cbn; auto].

Lemma ask_expert_trace :
  forall request s,
    exists t, trace (snd (ask_expert request s)) = trace s ++ t
              /\ Forall (query_time_entry (vector_db s)) t.
Proof.
  intros request s.
  destruct (vector_db s) as [db|] eqn:H.
  - rewrite (ask_expert_ready request s db H). unfold increment.
    run; split_choices; trace_delta.
  - run. rewrite H. cbn [fst snd total_requests_count vector_db stdout world trace].
    trace_delta.
Qed.

Lemma handle_trace :
  forall r s,
    exists t, trace (snd (handle r s)) = trace s ++ t
              /\ Forall (query_time_entry (vector_db s)) t.
Proof.
  intros [|request|] s.
  - exists []. cbn. rewrite app_nil_r. auto.
  - apply ask_expert_trace.
  - run; trace_delta.
Qed.

Lemma serve_trace :
  forall reqs s,
    exists t, trace (snd (serve reqs s)) = trace s ++ t
              /\ Forall (query_time_entry (vector_db s)) t.
Proof.
  induction reqs as [|r rest IH]; intros s.
  - exists []. cbn. rewrite app_nil_r. auto.
  - rewrite serve_cons. cbn [snd].
    destruct (handle_trace r s) as (t1 & E1 & F1).
    destruct (IH (snd (handle r s))) as (t2 & E2 & F2).
    rewrite handle_vector_db in F2.
    exists (t1 ++ t2). split.
    + rewrite E2, E1, app_assoc. reflexivity.
    + apply Forall_app. auto.
Qed.

(** ** Start-up and shut-down *)

Lemma doc_url_id : re_search doc_url = Some doc_id.
Proof. vm_compute. reflexivity. Qed.

Ltac split_status :=
  match goal with
  | |- context [if ?b then _ else _] => destruct b eqn:?
  end; cbn [fst snd total_requests_count vector_db stdout world trace].

Ltac run_startup :=
  unfold_program; rewrite doc_url_id;
  cbn [fst snd total_requests_count vector_db stdout world trace];
  repeat (next_call || split_status).

(** From [trace s ++ x = trace s ++ t], [t]. *)
Ltac delta_in H :=
  repeat rewrite <- app_assoc in H; cbn [app] in H;
  first [ apply app_inv_head in H
        | rewrite <- (app_nil_r (trace _)) in H at 1; apply app_inv_head in H ];
  subst.

Ltac raised_in H :=
  cbn [In] in H;
  repeat (destruct H as [H|H]; [try discriminate H; try (injection H as H; subst) | ]);
  try contradiction.

Lemma lifespan_startup_returns :
  forall s, fst (lifespan_startup s) = Ok tt.
Proof.
  intros s. run_startup; reflexivity.
Qed.

Lemma lifespan_startup_failure :
  forall s t e,
    trace (snd (lifespan_startup s)) = trace s ++ t ->
    In (Raised e) t ->
    vector_db (snd (lifespan_startup s)) = vector_db s
    /\ stdout (snd (lifespan_startup s)) = stdout s ++ [loading_line; startup_error_line e].
Proof.
  intros s t e. run_startup; intros H HIn; delta_in H; raised_in HIn;
    rewrite <- app_assoc; split; reflexivity.
Qed.

Lemma lifespan_startup_failure_fresh :
  forall s e,
    trace s = [] ->
    vector_db s = None ->
    In (Raised e) (trace (snd (lifespan_startup s))) ->
    vector_db (snd (lifespan_startup s)) = None.
Proof.
  intros s e Ht Hdb HIn.
  rewrite <- Hdb.
  apply (lifespan_startup_failure s (trace (snd (lifespan_startup s))) e);
    [|exact HIn].
  rewrite Ht. cbn [app]. reflexivity.
Qed.

Lemma lifespan_startup_trace :
  forall s,
    exists t, trace (snd (lifespan_startup s)) = trace s ++ t
              /\ Forall split_1000_200 t.
Proof.
  intros s. run_startup; trace_delta.
Qed.

Lemma lifespan_shutdown_frame :
  forall s : State,
    fst (lifespan_shutdown s) = Ok tt
    /\ trace (snd (lifespan_shutdown s)) = trace s
    /\ total_requests_count (snd (lifespan_shutdown s)) = total_requests_count s.
Proof.
  intros s. unfold_program.
  cbn [fst snd total_requests_count vector_db stdout world trace].
  destruct (vector_db s); cbn; auto.
Qed.

Lemma lifespan_startup_count :
  forall s,
    total_requests_count (snd (lifespan_startup s)) = total_requests_count s.
Proof.
  intros s. run_startup; reflexivity.
Qed.

Lemma query_time_entry_split :
  forall (db : option FAISS) (e : Entry), query_time_entry db e -> split_1000_200 e.
Proof.
  intros db [c|e] H; [destruct c|]; cbn in *; tauto.
Qed.

Lemma run_app_state :
  forall reqs w,
    snd (run_app reqs w) = snd (lifespan_shutdown (snd (serve reqs (started w)))).
Proof.
  intros reqs w. unfold run_app, started.
  destruct (lifespan_startup (initial_state w)) as [r0 s0]. cbn [snd].
  destruct (serve reqs s0) as [outs s1]. cbn [snd].
  destruct (lifespan_shutdown s1) as [r2 s2]. reflexivity.
Qed.

(** ** Errors that surface *)

Lemma ask_expert_surfaces :
  forall request s t e,
    trace (snd (ask_expert request s)) = trace s ++ t ->
    In (Raised e) t ->
    exists e', fst (ask_expert request s) = Err e'.
Proof.
  intros request s t e.
  destruct (vector_db s) as [db|] eqn:Hdb.
  - rewrite (ask_expert_ready request s db Hdb). unfold increment.
    run; split_choices; intros H HIn; delta_in H; raised_in HIn; eauto.
  - run. rewrite Hdb. cbn [fst snd total_requests_count vector_db stdout world trace].
    eauto.
Qed.

Lemma handle_surfaces :
  forall r s t e,
    trace (snd (handle r s)) = trace s ++ t ->
    In (Raised e) t ->
    exists e', fst (handle r s) = Err e'.
Proof.
  intros [|request|] s t e.
  - cbn. intros H HIn. delta_in H. contradiction.
  - apply ask_expert_surfaces.
  - run; intros H HIn; delta_in H; raised_in HIn; eauto.
Qed.

Lemma load_document_text_surfaces :
  forall url s t e,
    trace (snd (load_document_text url s)) = trace s ++ t ->
    In (Raised e) t ->
    fst (load_document_text url s) = Err e.
Proof.
  intros url s t e. unfold_program.
  destruct (re_search url) as [id|];
    cbn [fst snd total_requests_count vector_db stdout world trace];
    repeat (next_call || split_status);
    intros H HIn; delta_in H; raised_in HIn; reflexivity.
Qed.

Lemma ask_expert_calls :
  forall request s t,
    trace (snd (ask_expert request s)) = trace s ++ t ->
    (calls is_embed_query t <= 1
     /\ calls is_index_search t <= 1
     /\ calls is_chat_completion t <= 1)%nat.
Proof.
  intros request s t.
  destruct (vector_db s) as [db|] eqn:Hdb.
  - rewrite (ask_expert_ready request s db Hdb). unfold increment.
    run; split_choices; intros H; delta_in H; cbn; lia.
  - run. rewrite Hdb. cbn [fst snd total_requests_count vector_db stdout world trace].
    intros H; delta_in H; cbn; lia.
Qed.

Lemma started_unfold :
  forall w, started w = snd (lifespan_startup (initial_state w)).
Proof. intros w. unfold started. reflexivity. Qed.

Lemma started_failed_not_ready :
  forall w e request,
    In (Raised e) (trace (started w)) ->
    vector_db (started w) = None
    /\ fst (ask_expert request (started w))
       = Err (HTTPException 503 not_ready_detail).
Proof.
  intros w e request HIn.
  assert (Hdb : vector_db (started w) = None).
  { rewrite started_unfold in *.
    apply (lifespan_startup_failure_fresh (initial_state w) e);
      [reflexivity | reflexivity | exact HIn]. }
  split; [exact Hdb|].
  rewrite (ask_expert_rejects request (started w) Hdb). reflexivity.
Qed.

(** ** What the service guarantees *)

(** C3. An exception raised while the knowledge base is built at start-up
    is caught (start-up returns normally), logged (after the line
    "🚀 Загрузка базы знаний..." the line printed is
    "❌ Ошибка при инициализации базы знаний: " followed by [str(e)], which
    for an exception carrying a message is that message) and leaves
    [vector_db] as it was, so that an application started from the initial
    state answers every question with "not ready"; everywhere else an
    exception reaches the caller: a route in which anything was raised
    ends in an error, [load_document_text] raises what was raised in it,
    and shut-down raises nothing. *)
Theorem startup_failure_is_contained :
  (forall s, fst (lifespan_startup s) = Ok tt)
  /\ (forall s t e,
        trace (snd (lifespan_startup s)) = trace s ++ t ->
        In (Raised e) t ->
        vector_db (snd (lifespan_startup s)) = vector_db s
        /\ stdout (snd (lifespan_startup s))
           = stdout s ++ [u "🚀 Загрузка базы знаний...";
                          u "❌ Ошибка при инициализации базы знаний: " ++ exc_str e])
  /\ (forall w e request,
        In (Raised e) (trace (started w)) ->
        vector_db (started w) = None
        /\ fst (ask_expert request (started w))
           = Err (HTTPException 503 not_ready_detail))
  /\ (forall r s t e,
        trace (snd (handle r s)) = trace s ++ t ->
        In (Raised e) t ->
        exists e', fst (handle r s) = Err e')
  /\ (forall url s t e,
        trace (snd (load_document_text url s)) = trace s ++ t ->
        In (Raised e) t ->
        fst (load_document_text url s) = Err e)
  /\ (forall s : State,
        fst (lifespan_shutdown s) = Ok tt
        /\ trace (snd (lifespan_shutdown s)) = trace s)
  /\ (forall msg r,
        exc_str (ExternalError msg) = msg
        /\ exc_str (ValueError msg) = msg
        /\ exc_str (IndexError msg) = msg
        /\ exc_str (HTTPStatusError r) = HTTPStatusError_str r).
Proof.
  split; [exact lifespan_startup_returns|].
  split.
  { intros s t e H HIn.
    rewrite <- loading_line_text, <- startup_error_prefix_text.
    exact (lifespan_startup_failure s t e H HIn). }
  split; [exact started_failed_not_ready|].
  split; [exact handle_surfaces|].
  split; [exact load_document_text_surfaces|].
  split.
  { intros s. destruct (lifespan_shutdown_frame s) as (H1 & H2 & _). auto. }
  intros msg r. repeat split.
Qed.

(** C4. [ask_expert] counts the request before it looks at [vector_db]: a
    request rejected as not ready ends in the state that has the counter
    incremented (and the rejection logged), the [try] block of an accepted
    request starts from the incremented state, and a request that ends in a
    processing error has been counted. *)
Theorem rejected_requests_are_counted :
  forall (request : QuestionRequest) (s : State),
    (vector_db s = None ->
     ask_expert request s
     = (Err (HTTPException 503 not_ready_detail),
        log [Raised (HTTPException 503 not_ready_detail)] (increment s)))
    /\ (forall db e s1,
          vector_db s = Some db ->
          ask_try db request (increment s) = (Err e, s1) ->
          fst (ask_expert request s) = Err (HTTPException 500 (processing_detail e))
          /\ total_requests_count (snd (ask_expert request s))
             = total_requests_count s + 1)
    /\ total_requests_count (snd (ask_expert request s)) = total_requests_count s + 1.
Proof.
  intros request s. split; [|split].
  - apply ask_expert_rejects.
  - intros db e s1 Hdb Htry. split.
    + rewrite (ask_expert_ready request s db Hdb), Htry. reflexivity.
    + apply ask_expert_count.
  - apply ask_expert_count.
Qed.

(** C8. Serving requests, in whatever order they are taken, leaves
    [vector_db] as start-up left it, and all the routes do with the store
    is embed a query and search it: every such call is made on that very
    store, and nothing splits, embeds or indexes documents. *)
Theorem requests_leave_index_untouched :
  forall (reqs : list Request) (s : State),
    vector_db (snd (serve reqs s)) = vector_db s
    /\ exists t, trace (snd (serve reqs s)) = trace s ++ t
                 /\ Forall (query_time_entry (vector_db s)) t.
Proof.
  intros reqs s. split.
  - apply serve_vector_db.
  - apply serve_trace.
Qed.

(** C10. The counter is 0 when the module is loaded; the landing page and
    the statistics route show it and leave it alone; [ask_expert] adds
    exactly one whatever the outcome; start-up and shut-down leave it
    alone; so over any run of requests it grows by the number of questions
    asked and never decreases. *)
Theorem request_counter_monotone :
  (forall w : World, total_requests_count (initial_state w : State) = 0)
  /\ (forall s : State,
        root s = (Ok (LandingPage (str_of_int (total_requests_count s))), s))
  /\ (forall s, total_requests_count (snd (get_stats s)) = total_requests_count s)
  /\ (forall s timestamp w,
        now_isoformat (world s) = (Ok timestamp, w) ->
        fst (get_stats s) = Ok (Stats (total_requests_count s) timestamp))
  /\ (forall request s,
        total_requests_count (snd (ask_expert request s)) = total_requests_count s + 1)
  /\ (forall s, total_requests_count (snd (lifespan_startup s)) = total_requests_count s)
  /\ (forall s : State,
        total_requests_count (snd (lifespan_shutdown s)) = total_requests_count s)
  /\ (forall reqs s,
        total_requests_count (snd (serve reqs s))
        = total_requests_count s + Z.of_nat (List.length (filter is_ask reqs))
        /\ total_requests_count s <= total_requests_count (snd (serve reqs s))).
Proof.
  repeat split.
  - intros s. pose proof (handle_count GetStats s) as H.
    cbn [handle is_ask] in H. lia.
  - intros s timestamp w H. open_program. rewrite H. reflexivity.
  - apply ask_expert_count.
  - apply lifespan_startup_count.
  - apply lifespan_shutdown_frame.
  - apply serve_count.
  - rewrite serve_count. lia.
Qed.

(** C5. When every step succeeds, start-up fetches the document, splits
    its text with chunk size 1000 and overlap 200, creates the embedder,
    embeds the chunks and builds the index from them, in that order, and
    stores the result in [vector_db]; and over a whole run of the
    application every splitter call there is has these two parameters, the
    routes making none. *)
Theorem build_chunks_embeds_indexes :
  (forall s response w1 chunks w2 embeddings w3 vectors w4 db w5,
      client_get (export_url doc_id) (world s) = (Ok response, w1) ->
      200 <= status_code response <= 299 ->
      create_documents 1000 200 [text response] w1 = (Ok chunks, w2) ->
      OpenAIEmbeddings API_KEY BASE_URL w2 = (Ok embeddings, w3) ->
      embed_documents embeddings (map page_content chunks) w3 = (Ok vectors, w4) ->
      faiss_index (map page_content chunks) vectors embeddings w4 = (Ok db, w5) ->
      vector_db (snd (lifespan_startup s)) = Some db
      /\ trace (snd (lifespan_startup s))
         = trace s ++
           [Called (HttpGet (export_url doc_id));
            Called (SplitDocuments 1000 200 [text response]);
            Called (NewEmbeddings API_KEY BASE_URL);
            Called (EmbedDocuments (map page_content chunks));
            Called (IndexBuild (map page_content chunks) vectors)])
  /\ (forall reqs w, Forall split_1000_200 (trace (snd (run_app reqs w))))
  /\ (forall reqs s t,
        trace (snd (serve reqs s)) = trace s ++ t ->
        forall chunk_size chunk_overlap texts,
          ~ In (Called (SplitDocuments chunk_size chunk_overlap texts)) t).
Proof.
  split; [|split].
  - intros s response w1 chunks w2 embeddings w3 vectors w4 db w5 H1 Hs H2 H3 H4 H5.
    assert (Hb : is_success response = true).
    { apply andb_true_intro. split; apply Z.leb_le; lia. }
    open_program. rewrite doc_url_id.
    cbn [fst snd total_requests_count vector_db stdout world trace].
    rewrite H1. cbn [fst snd total_requests_count vector_db stdout world trace].
    rewrite Hb. cbn [fst snd total_requests_count vector_db stdout world trace].
    rewrite H2. cbn [fst snd total_requests_count vector_db stdout world trace].
    rewrite H3. cbn [fst snd total_requests_count vector_db stdout world trace].
    rewrite H4. cbn [fst snd total_requests_count vector_db stdout world trace].
    rewrite H5. cbn [fst snd total_requests_count vector_db stdout world trace].
    split; [reflexivity|].
    repeat rewrite <- app_assoc. reflexivity.
  - intros reqs w. rewrite run_app_state.
    destruct (lifespan_shutdown_frame (snd (serve reqs (started w)))) as (_ & E & _).
    rewrite E.
    destruct (serve_trace reqs (started w)) as (t2 & E2 & F2).
    rewrite E2, started_unfold.
    destruct (lifespan_startup_trace (initial_state w)) as (t1 & E1 & F1).
    rewrite E1. cbn [initial_state trace app].
    apply Forall_app. split; [exact F1|].
    eapply Forall_impl; [|exact F2].
    intros e. apply query_time_entry_split.
  - intros reqs s t E chunk_size chunk_overlap texts HIn.
    destruct (serve_trace reqs s) as (t' & E' & F).
    rewrite E in E'. apply app_inv_head in E'. subst t'.
    rewrite Forall_forall in F. apply (F _ HIn).
Qed.

(** C6. On a ready index, an exception raised anywhere in the [try] block
    of [ask_expert], in particular by the embedding call or by the chat
    model, reaches the caller as [HTTPException 500] with the processing
    error detail; the store stays in place and the requests that follow
    are served from the state this one leaves; within one request the
    query is embedded at most once, the index searched at most once and
    the model called at most once. *)
Theorem provider_failure_is_processing_error :
  forall (request : QuestionRequest) (s : State) (db : FAISS),
    vector_db s = Some db ->
    (forall e s1,
        ask_try db request (increment s) = (Err e, s1) ->
        ask_expert request s
        = (Err (HTTPException 500 (processing_detail e)),
           log [Raised (HTTPException 500 (processing_detail e))] s1))
    /\ (forall e w,
          embed_query db (question request) (world s) = (Err e, w) ->
          fst (ask_expert request s) = Err (HTTPException 500 (processing_detail e)))
    /\ (forall v w1 docs w2 client w3 e w4,
          embed_query db (question request) (world s) = (Ok v, w1) ->
          similarity_search_by_vector db v 4 w1 = (Ok docs, w2) ->
          OpenAI API_KEY BASE_URL w2 = (Ok client, w3) ->
          chat_completions_create client model
            (make_messages (make_context docs) (question request)) temperature w3
          = (Err e, w4) ->
          fst (ask_expert request s) = Err (HTTPException 500 (processing_detail e)))
    /\ vector_db (snd (ask_expert request s)) = Some db
    /\ (forall rest,
          fst (serve (PostAsk request :: rest) s)
          = fst (ask_expert request s) :: fst (serve rest (snd (ask_expert request s))))
    /\ (forall t,
          trace (snd (ask_expert request s)) = trace s ++ t ->
          (calls is_embed_query t <= 1
           /\ calls is_index_search t <= 1
           /\ calls is_chat_completion t <= 1)%nat).
Proof.
  intros request s db Hdb. repeat split.
  - intros e s1 H. rewrite (ask_expert_ready request s db Hdb), H. reflexivity.
  - intros e w H. rewrite (ask_expert_ready request s db Hdb).
    unfold increment. open_program. rewrite H. reflexivity.
  - intros v w1 docs w2 client w3 e w4 H1 H2 H3 H4.
    rewrite (ask_expert_ready request s db Hdb).
    unfold increment. open_program.
    rewrite H1. cbn [fst snd total_requests_count vector_db stdout world trace].
    rewrite H2. cbn [fst snd total_requests_count vector_db stdout world trace].
    rewrite H3. cbn [fst snd total_requests_count vector_db stdout world trace].
    rewrite H4. reflexivity.
  - rewrite ask_expert_vector_db. exact Hdb.
  - intros rest. rewrite serve_cons. reflexivity.
  - apply (ask_expert_calls request s t H).
  - apply (ask_expert_calls request s t H).
  - apply (ask_expert_calls request s t H).
Qed.


(** ** Answers and errors of [ask_expert] *)

Lemma ask_expert_error_cases :
  forall (request : QuestionRequest) (s : State) (e : Exc),
    fst (ask_expert request s) = Err e ->
    (vector_db s = None /\ e = HTTPException 503 not_ready_detail)
    \/ (exists db e0, vector_db s = Some db
                      /\ e = HTTPException 500 (processing_detail e0)).
Proof.
  intros request s e.
  destruct (vector_db s) as [db|] eqn:Hdb.
  - rewrite (ask_expert_ready request s db Hdb).
    destruct (ask_try db request (increment s)) as [[b|e0] s1]; cbn [fst];
      intros H; [discriminate|].
    injection H as H. right. exists db, e0. split; [reflexivity | symmetry; exact H].
  - rewrite (ask_expert_rejects request s Hdb). cbn [fst]. intros H.
    injection H as H. left. split; [reflexivity | symmetry; exact H].
Qed.

(** X1. On a ready index, when the embedding, the search, the client and
    the model all answer and the model returns at least one choice, the
    reply is the content of the first choice (which may be absent), the
    other choices are ignored, the request has been counted, and the four
    calls were made once each, in order. *)
Theorem ask_expert_answers :
  forall (request : QuestionRequest) (s : State) db v w1 docs w2 client w3 c choices w4,
    vector_db s = Some db ->
    embed_query db (question request) (world s) = (Ok v, w1) ->
    similarity_search_by_vector db v 4 w1 = (Ok docs, w2) ->
    OpenAI API_KEY BASE_URL w2 = (Ok client, w3) ->
    chat_completions_create client model
      (make_messages (make_context docs) (question request)) temperature w3
    = (Ok (c :: choices), w4) ->
    ask_expert request s
    = (Ok (Answer (message_content c)),
       {| total_requests_count := total_requests_count s + 1;
          vector_db := Some db;
          stdout := stdout s;
          world := w4;
          trace := trace s ++
                   [Called (EmbedQuery db (question request));
                    Called (IndexSearch db v 4);
                    Called (NewClient API_KEY BASE_URL);
                    Called (ChatCompletion model
                              (make_messages (make_context docs) (question request))
                              temperature)] |}).
Proof.
  intros request s db v w1 docs w2 client w3 c choices w4 Hdb H1 H2 H3 H4.
  rewrite (ask_expert_ready request s db Hdb).
  unfold increment. open_program.
  rewrite H1. cbn [fst snd total_requests_count vector_db stdout world trace].
  rewrite H2. cbn [fst snd total_requests_count vector_db stdout world trace].
  rewrite H3. cbn [fst snd total_requests_count vector_db stdout world trace].
  rewrite H4. cbn [fst snd total_requests_count vector_db stdout world trace].
  rewrite Hdb. repeat rewrite <- app_assoc. reflexivity.
Qed.

(** X2. When the model answers with an empty list of choices, taking the
    first one raises [IndexError], and the caller gets [HTTPException 500]
    whose detail carries "list index out of range"; the request has been
    counted and the store is still in place. *)
Theorem no_choice_is_processing_error :
  forall (request : QuestionRequest) (s : State) db v w1 docs w2 client w3 w4,
    vector_db s = Some db ->
    embed_query db (question request) (world s) = (Ok v, w1) ->
    similarity_search_by_vector db v 4 w1 = (Ok docs, w2) ->
    OpenAI API_KEY BASE_URL w2 = (Ok client, w3) ->
    chat_completions_create client model
      (make_messages (make_context docs) (question request)) temperature w3
    = (Ok [], w4) ->
    fst (ask_expert request s)
    = Err (HTTPException 500 (processing_detail (IndexError index_out_of_range)))
    /\ total_requests_count (snd (ask_expert request s)) = total_requests_count s + 1
    /\ vector_db (snd (ask_expert request s)) = Some db.
Proof.
  intros request s db v w1 docs w2 client w3 w4 Hdb H1 H2 H3 H4.
  split; [|split].
  - rewrite (ask_expert_ready request s db Hdb).
    unfold increment. open_program.
    rewrite H1. cbn [fst snd total_requests_count vector_db stdout world trace].
    rewrite H2. cbn [fst snd total_requests_count vector_db stdout world trace].
    rewrite H3. cbn [fst snd total_requests_count vector_db stdout world trace].
    rewrite H4. reflexivity.
  - apply ask_expert_count.
  - rewrite ask_expert_vector_db. exact Hdb.
Qed.

(** X3. Whatever goes wrong in [ask_expert], the caller sees an
    [HTTPException] and nothing else: 503 with the loading message exactly
    when there is no store, and otherwise 500 with the processing-error
    detail of the exception caught. *)
Theorem ask_expert_raises_only_http :
  forall (request : QuestionRequest) (s : State) (e : Exc),
    fst (ask_expert request s) = Err e ->
    ((vector_db s = None /\ e = HTTPException 503 not_ready_detail)
     \/ (exists db e0, vector_db s = Some db
                       /\ e = HTTPException 500 (processing_detail e0)))
    /\ (e = HTTPException 503 not_ready_detail <-> vector_db s = None).
Proof.
  intros request s e H.
  pose proof (ask_expert_error_cases request s e H) as Hc.
  split; [exact Hc|].
  destruct Hc as [[Hdb He]|(db & e0 & Hdb & He)].
  - tauto.
  - split; intros H'.
    + rewrite He in H'. discriminate H'.
    + rewrite Hdb in H'. discriminate H'.
Qed.

(** ** Readiness while serving *)

Lemma handle_idle :
  forall (r : Request) (s : State),
    vector_db s = None ->
    exists t, trace (snd (handle r s)) = trace s ++ t /\ Forall idle_entry t.
Proof.
  intros [|request|] s Hdb.
  - exists []. cbn. rewrite app_nil_r. auto.
  - cbn [handle]. rewrite (ask_expert_rejects request s Hdb).
    unfold log. cbn [snd trace]. eexists. split; [reflexivity|].
    repeat constructor.
  - run; trace_delta.
Qed.

Lemma serve_idle :
  forall (reqs : list Request) (s : State),
    vector_db s = None ->
    exists t, trace (snd (serve reqs s)) = trace s ++ t /\ Forall idle_entry t.
Proof.
  induction reqs as [|r rest IH]; intros s Hdb.
  - exists []. cbn. rewrite app_nil_r. auto.
  - rewrite serve_cons. cbn [snd].
    destruct (handle_idle r s Hdb) as (t1 & E1 & F1).
    assert (Hdb' : vector_db (snd (handle r s)) = None)
      by (rewrite handle_vector_db; exact Hdb).
    destruct (IH (snd (handle r s)) Hdb') as (t2 & E2 & F2).
    exists (t1 ++ t2). split.
    + rewrite E2, E1, app_assoc. reflexivity.
    + apply Forall_app. auto.
Qed.

(** X4. Without a store nothing brings one back: over any sequence of
    requests every question is answered 503, and the only call the routes
    make is the clock of [get_stats]; no embedding, search, client or
    model call, and no fetch. *)
Theorem not_ready_stays_not_ready :
  forall (reqs : list Request) (s : State),
    vector_db s = None ->
    (forall i request,
        nth_error reqs i = Some (PostAsk request) ->
        nth_error (fst (serve reqs s)) i
        = Some (Err (HTTPException 503 not_ready_detail)))
    /\ vector_db (snd (serve reqs s)) = None
    /\ exists t, trace (snd (serve reqs s)) = trace s ++ t /\ Forall idle_entry t.
Proof.
  intros reqs s Hdb. split; [|split].
  - revert s Hdb. induction reqs as [|r rest IH]; intros s Hdb i request Hi.
    + destruct i; discriminate Hi.
    + rewrite serve_cons. cbn [fst]. destruct i as [|i]; cbn [nth_error] in *.
      * injection Hi as Hi. subst r. cbn [handle].
        rewrite (ask_expert_rejects request s Hdb). reflexivity.
      * assert (Hdb' : vector_db (snd (handle r s)) = None)
          by (rewrite handle_vector_db; exact Hdb).
        exact (IH (snd (handle r s)) Hdb' i request Hi).
  - rewrite serve_vector_db. exact Hdb.
  - apply serve_idle. exact Hdb.
Qed.

(** X5. With a store in place no question is ever answered 503, whatever
    requests came before it and however they ended: a question either
    gets its answer or a 500. *)
Theorem ready_never_answers_not_ready :
  forall (reqs : list Request) (s : State) db i request,
    vector_db s = Some db ->
    nth_error reqs i = Some (PostAsk request) ->
    (exists a, nth_error (fst (serve reqs s)) i = Some (Ok (Answer a)))
    \/ (exists e0, nth_error (fst (serve reqs s)) i
                   = Some (Err (HTTPException 500 (processing_detail e0)))).
Proof.
  induction reqs as [|r rest IH]; intros s db i request Hdb Hi.
  - destruct i; discriminate Hi.
  - rewrite serve_cons. cbn [fst]. destruct i as [|i]; cbn [nth_error] in *.
    + injection Hi as Hi. subst r. cbn [handle].
      destruct (fst (ask_expert request s)) as [b|e] eqn:E.
      * left. rewrite (ask_expert_ready request s db Hdb) in E.
        destruct (ask_try db request (increment s)) as [[b'|e'] s1] eqn:Et;
          cbn [fst] in E; [|discriminate E].
        injection E as E. subst b'.
        revert Et. unfold increment. run; split_choices; intros Et;
          try discriminate Et; injection Et as Et _; subst b; eauto.
      * right. destruct (ask_expert_error_cases request s e E)
          as [[Hn _]|(db' & e0 & _ & He)].
        -- rewrite Hdb in Hn. discriminate Hn.
        -- subst e. eauto.
    + apply (IH (snd (handle r s)) db i request); [|exact Hi].
      rewrite handle_vector_db. exact Hdb.
Qed.

(** ** Start-up and shut-down, end to end *)

Lemma lifespan_shutdown_stopped :
  forall s : State, lifespan_shutdown s = (Ok tt, stopped s).
Proof.
  intros s. unfold stopped. open_program.
  destruct (vector_db s) as [db|] eqn:Hdb;
    cbn [fst snd total_requests_count vector_db stdout world trace];
    rewrite <- app_assoc; reflexivity.
Qed.

(** X6. Shut-down prints its two lines, makes no call, raises nothing and
    leaves no store behind, whether there was one or not; a question
    handled after it would be answered 503. *)
Theorem shutdown_releases_index :
  forall s : State,
    lifespan_shutdown s = (Ok tt, stopped s)
    /\ forall request,
        fst (ask_expert request (snd (lifespan_shutdown s)))
        = Err (HTTPException 503 not_ready_detail).
Proof.
  intros s.
  pose proof (lifespan_shutdown_stopped s) as E.
  split; [exact E|].
  intros request. rewrite E. cbn [snd].
  rewrite (ask_expert_rejects request (stopped s)); reflexivity.
Qed.

(** X7. Start-up ends in one of two ways.  Either nothing was raised: the
    store is set and the two lines printed are the loading line and the
    success line.  Or something was raised: there is no store and the two
    lines are the loading line and the error line of that exception.  So
    the service is ready exactly when the build raised nothing. *)
Theorem startup_ready_or_failed :
  forall w : World,
    (exists db,
        vector_db (started w) = Some db
        /\ stdout (started w) = [loading_line; loaded_line]
        /\ forall e, ~ In (Raised e) (trace (started w)))
    \/ (exists e,
           vector_db (started w) = None
           /\ stdout (started w) = [loading_line; startup_error_line e]
           /\ In (Raised e) (trace (started w))).
Proof.
  intros w. rewrite started_unfold. unfold initial_state.
  run_startup.
  all: try (right; eexists; split; [reflexivity|]; split; [reflexivity|];
            cbn [app In]; auto 10).
  left. eexists. split; [reflexivity|]. split; [reflexivity|].
  intros e H. cbn [app In] in H. raised_in H.
Qed.

(** ** Counting over a run *)

Lemma serve_app :
  forall (pre post : list Request) (s : State),
    serve (pre ++ post) s
    = (fst (serve pre s) ++ fst (serve post (snd (serve pre s))),
       snd (serve post (snd (serve pre s)))).
Proof.
  induction pre as [|r pre IH]; intros post s.
  - cbn [app serve fst snd]. destruct (serve post s). reflexivity.
  - cbn [app]. rewrite !serve_cons. cbn [fst snd]. rewrite IH. reflexivity.
Qed.

Lemma serve_length :
  forall (reqs : list Request) (s : State),
    List.length (fst (serve reqs s)) = List.length reqs.
Proof.
  induction reqs as [|r rest IH]; intros s.
  - reflexivity.
  - rewrite serve_cons. cbn [fst List.length]. rewrite IH. reflexivity.
Qed.

Lemma run_app_outputs :
  forall reqs w, fst (run_app reqs w) = fst (serve reqs (started w)).
Proof.
  intros reqs w. unfold run_app, started.
  destruct (lifespan_startup (initial_state w)) as [r0 s0]. cbn [snd].
  destruct (serve reqs s0) as [outs s1]. cbn [fst].
  destruct (lifespan_shutdown s1) as [r2 s2]. reflexivity.
Qed.

Lemma started_count :
  forall w : World, total_requests_count (started w) = 0.
Proof.
  intros w. rewrite started_unfold, lifespan_startup_count. reflexivity.
Qed.

Lemma nth_error_middle :
  forall (A : Type) (l1 l2 : list A) (x : A) n,
    List.length l1 = n -> nth_error (l1 ++ x :: l2) n = Some x.
Proof.
  intros A l1 l2 x n H. subst n.
  rewrite nth_error_app2 by lia. rewrite Nat.sub_diag. reflexivity.
Qed.

(** X8. In a run of the application the landing page shows, and the
    statistics report, the number of questions asked before them in that
    run, whether those were answered, rejected or failed; requests of the
    other two kinds do not count. *)
Theorem pages_show_questions_so_far :
  forall (pre post : list Request) (w : World),
    nth_error (fst (run_app (pre ++ GetRoot :: post) w)) (List.length pre)
    = Some (Ok (LandingPage
                  (str_of_int (Z.of_nat (List.length (filter is_ask pre))))))
    /\ forall timestamp w',
        now_isoformat (world (snd (serve pre (started w)))) = (Ok timestamp, w') ->
        nth_error (fst (run_app (pre ++ GetStats :: post) w)) (List.length pre)
        = Some (Ok (Stats (Z.of_nat (List.length (filter is_ask pre))) timestamp)).
Proof.
  intros pre post w.
  assert (Hc : total_requests_count (snd (serve pre (started w)))
               = Z.of_nat (List.length (filter is_ask pre))).
  { rewrite serve_count, started_count. lia. }
  split.
  - rewrite run_app_outputs, serve_app. cbn [fst].
    rewrite serve_cons. cbn [fst].
    rewrite nth_error_middle by apply serve_length.
    cbn [handle]. unfold root, bind, get_total_requests_count, ret. cbn [fst].
    rewrite Hc. reflexivity.
  - intros timestamp w' Hclock.
    rewrite run_app_outputs, serve_app. cbn [fst].
    rewrite serve_cons. cbn [fst].
    rewrite nth_error_middle by apply serve_length.
    cbn [handle]. open_program. rewrite Hclock. cbn [fst]. rewrite Hc. reflexivity.
Qed.

Lemma calls_app :
  forall (p : Call -> bool) (a b : list Entry),
    calls p (a ++ b) = (calls p a + calls p b)%nat.
Proof.
  intros p a b. unfold calls. rewrite filter_app, length_app. reflexivity.
Qed.

Lemma handle_route :
  forall (r : Request) (s : State),
    exists t, trace (snd (handle r s)) = trace s ++ t /\ Forall route_entry t.
Proof.
  intros [|request|] s.
  - exists []. cbn. rewrite app_nil_r. auto.
  - cbn [handle]. destruct (vector_db s) as [db|] eqn:H.
    + rewrite (ask_expert_ready request s db H). unfold increment.
      run; split_choices; trace_delta.
    + rewrite (ask_expert_rejects request s H). unfold log. cbn [snd trace].
      eexists. split; [reflexivity|]. repeat constructor.
  - run; trace_delta.
Qed.

Lemma serve_route :
  forall (reqs : list Request) (s : State),
    exists t, trace (snd (serve reqs s)) = trace s ++ t /\ Forall route_entry t.
Proof.
  induction reqs as [|r rest IH]; intros s.
  - exists []. cbn. rewrite app_nil_r. auto.
  - rewrite serve_cons. cbn [snd].
    destruct (handle_route r s) as (t1 & E1 & F1).
    destruct (IH (snd (handle r s))) as (t2 & E2 & F2).
    exists (t1 ++ t2). split.
    + rewrite E2, E1, app_assoc. reflexivity.
    + apply Forall_app. auto.
Qed.

Lemma route_entries_fetch_nothing :
  forall t : list Entry, Forall route_entry t -> calls is_http_get t = 0%nat.
Proof.
  induction t as [|e t IH]; intros F.
  - reflexivity.
  - inversion F as [|e' t' He Ft]; subst.
    change (e :: t) with ([e] ++ t). rewrite calls_app, (IH Ft).
    destruct e as [c|x]; [destruct c|]; cbn in He; try contradiction; reflexivity.
Qed.

Lemma lifespan_startup_fetches_first :
  forall s : State,
    exists t,
      trace (snd (lifespan_startup s))
      = trace s ++ Called (HttpGet (export_url doc_id)) :: t
      /\ calls is_http_get t = 0%nat.
Proof.
  intros s. run_startup; repeat rewrite <- app_assoc; cbn [app];
    eexists; split; reflexivity.
Qed.

(** X9. Every run of the application fetches the document exactly once:
    the first thing it does is request the plain-text export of the
    document of [doc_url], and neither a failed start-up nor any request
    makes it fetch again. *)
Theorem document_is_fetched_once :
  forall (reqs : list Request) (w : World),
    exists t,
      trace (snd (run_app reqs w)) = Called (HttpGet (export_url doc_id)) :: t
      /\ calls is_http_get t = 0%nat.
Proof.
  intros reqs w. rewrite run_app_state.
  destruct (lifespan_shutdown_frame (snd (serve reqs (started w)))) as (_ & E & _).
  rewrite E.
  destruct (serve_route reqs (started w)) as (t2 & E2 & F2).
  rewrite E2, started_unfold.
  destruct (lifespan_startup_fetches_first (initial_state w)) as (t1 & E1 & N1).
  rewrite E1. cbn [initial_state trace app].
  exists (t1 ++ t2). split; [reflexivity|].
  rewrite calls_app, N1, (route_entries_fetch_nothing t2 F2). reflexivity.
Qed.

Lemma handle_calls :
  forall (r : Request) (s : State) t,
    trace (snd (handle r s)) = trace s ++ t ->
    (calls is_embed_query t <= (if is_ask r then 1 else 0)
     /\ calls is_index_search t <= (if is_ask r then 1 else 0)
     /\ calls is_chat_completion t <= (if is_ask r then 1 else 0))%nat.
Proof.
  intros [|request|] s t; cbn [handle is_ask].
  - cbn. intros H. delta_in H. cbn. lia.
  - apply ask_expert_calls.
  - run; intros H; delta_in H; cbn; lia.
Qed.

Lemma serve_calls :
  forall (reqs : list Request) (s : State) t,
    trace (snd (serve reqs s)) = trace s ++ t ->
    (calls is_embed_query t <= List.length (filter is_ask reqs)
     /\ calls is_index_search t <= List.length (filter is_ask reqs)
     /\ calls is_chat_completion t <= List.length (filter is_ask reqs))%nat.
Proof.
  induction reqs as [|r rest IH]; intros s t H.
  - cbn in H. delta_in H. cbn. lia.
  - rewrite serve_cons in H. cbn [snd] in H.
    destruct (handle_route r s) as (t1 & E1 & _).
    destruct (serve_route rest (snd (handle r s))) as (t2 & E2 & _).
    rewrite E2, E1, <- app_assoc in H. apply app_inv_head in H. subst t.
    pose proof (handle_calls r s t1 E1) as (A1 & A2 & A3).
    pose proof (IH (snd (handle r s)) t2 E2) as (B1 & B2 & B3).
    rewrite !calls_app. cbn [filter].
    destruct (is_ask r); cbn [List.length]; lia.
Qed.

(** X10. Serving costs at most one query embedding, one index search and
    one model call per question asked, the other requests costing none;
    and while there is no store, none at all. *)
Theorem at_most_one_model_call_per_question :
  forall (reqs : list Request) (s : State) t,
    trace (snd (serve reqs s)) = trace s ++ t ->
    (calls is_embed_query t <= List.length (filter is_ask reqs)
     /\ calls is_index_search t <= List.length (filter is_ask reqs)
     /\ calls is_chat_completion t <= List.length (filter is_ask reqs))%nat
    /\ (vector_db s = None ->
        calls is_embed_query t = 0%nat
        /\ calls is_index_search t = 0%nat
        /\ calls is_chat_completion t = 0%nat).
Proof.
  intros reqs s t H. split; [exact (serve_calls reqs s t H)|].
  intros Hdb. destruct (serve_idle reqs s Hdb) as (t' & E & F).
  rewrite E in H. apply app_inv_head in H. subst t'.
  clear E. induction t as [|e t IH].
  - repeat split.
  - inversion F as [|e' t'' He Ft]; subst.
    destruct (IH Ft) as (I1 & I2 & I3).
    change (e :: t) with ([e] ++ t). rewrite !calls_app, I1, I2, I3.
    destruct e as [c|x]; [destruct c|]; cbn in He; try contradiction;
      repeat split.
Qed.

Lemma handle_stdout :
  forall (r : Request) (s : State), stdout (snd (handle r s)) = stdout s.
Proof.
  intros [|request|] s; cbn [handle].
  - reflexivity.
  - destruct (vector_db s) as [db|] eqn:H.
    + rewrite (ask_expert_ready request s db H).
      pose proof (ask_try_frame db request (increment s)) as (_ & _ & Hs).
      destruct (ask_try db request (increment s)) as [[b|e] s1]; cbn in *; exact Hs.
    + rewrite (ask_expert_rejects request s H). reflexivity.
  - run; reflexivity.
Qed.

Lemma serve_stdout :
  forall (reqs : list Request) (s : State), stdout (snd (serve reqs s)) = stdout s.
Proof.
  induction reqs as [|r rest IH]; intros s.
  - reflexivity.
  - rewrite serve_cons. cbn [snd]. rewrite IH. apply handle_stdout.
Qed.

Lemma started_stdout :
  forall w : World,
    stdout (started w) = [loading_line; loaded_line]
    \/ exists e, stdout (started w) = [loading_line; startup_error_line e].
Proof.
  intros w. rewrite started_unfold. unfold initial_state.
  run_startup; cbn [app]; eauto.
Qed.

(** X13. A whole run, from start-up to shut-down: every request gets
    exactly one reply; the counter ends at the number of questions asked;
    no store is left; and the application has printed four lines, the
    routes printing nothing: the loading line, the success line or the
    error line of the build, and the two lines of shut-down. *)
Theorem run_from_start_to_stop :
  forall (reqs : list Request) (w : World),
    List.length (fst (run_app reqs w)) = List.length reqs
    /\ total_requests_count (snd (run_app reqs w))
       = Z.of_nat (List.length (filter is_ask reqs))
    /\ vector_db (snd (run_app reqs w)) = None
    /\ (stdout (snd (run_app reqs w))
        = [loading_line; loaded_line; stopping_line; stopped_line]
        \/ exists e,
            stdout (snd (run_app reqs w))
            = [loading_line; startup_error_line e; stopping_line; stopped_line]).
Proof.
  intros reqs w. rewrite run_app_outputs, run_app_state, lifespan_shutdown_stopped.
  cbn [snd]. unfold stopped.
  cbn [total_requests_count vector_db stdout].
  split; [apply serve_length|]. split; [|split; [reflexivity|]].
  - rewrite serve_count, started_count. lia.
  - rewrite serve_stdout.
    destruct (started_stdout w) as [E|(e & E)]; rewrite E; cbn [app]; eauto.
Qed.

End Properties.

(** * The regular expression *)

Lemma strip_prefix_app :
  forall p r, strip_prefix p (p ++ r) = Some r.
Proof.
  induction p as [|a p IH]; intros r; cbn.
  - reflexivity.
  - rewrite N.eqb_refl. apply IH.
Qed.

Lemma strip_prefix_Some :
  forall p s r, strip_prefix p s = Some r -> s = p ++ r.
Proof.
  induction p as [|a p IH]; intros s r H; cbn in H.
  - injection H as H. subst. reflexivity.
  - destruct s as [|b s]; [discriminate|].
    destruct (N.eqb_spec a b) as [E|E]; [|discriminate].
    subst b. cbn. f_equal. apply IH. exact H.
Qed.

Lemma take_while_app :
  forall p id post,
    forallb p id = true ->
    take_while p (id ++ post) = id ++ take_while p post.
Proof.
  induction id as [|c id IH]; intros post H; cbn in *.
  - reflexivity.
  - apply andb_prop in H. destruct H as [Hc H].
    rewrite Hc. f_equal. apply IH. exact H.
Qed.

Lemma take_while_all :
  forall p s, forallb p (take_while p s) = true.
Proof.
  induction s as [|c s IH]; cbn.
  - reflexivity.
  - destruct (p c) eqn:E; cbn; [rewrite E, IH|]; reflexivity.
Qed.

(** What follows the run does not belong to it. *)
Lemma take_while_rest :
  forall p s, exists post,
    s = take_while p s ++ post
    /\ (forall c rest, post = c :: rest -> p c = false).
Proof.
  induction s as [|c s (post & E & H)]; cbn.
  - exists []. split; [reflexivity|]. intros c rest Hc. discriminate.
  - destruct (p c) eqn:Ec.
    + exists post. split; [cbn; f_equal; exact E | exact H].
    + exists (c :: s). split; [reflexivity|].
      intros c' rest Hc. injection Hc as Hc _. subst. exact Ec.
Qed.

Lemma match_here_segment :
  forall s id,
    match_here s = Some id ->
    exists post,
      segment_at s [] id post
      /\ (forall c rest, post = c :: rest -> is_id_char c = false).
Proof.
  intros s id H. unfold match_here in H.
  destruct (strip_prefix slash_d_slash s) as [r|] eqn:Hp; [|discriminate].
  apply strip_prefix_Some in Hp.
  destruct (take_while_rest is_id_char r) as (post & Er & Hpost).
  pose proof (take_while_all is_id_char r) as Hall.
  destruct (take_while is_id_char r) as [|c run] eqn:Et; [discriminate|].
  injection H as H. subst id.
  exists post. split; [|exact Hpost].
  split; [|split].
  - cbn [app]. rewrite Hp, Er. reflexivity.
  - discriminate.
  - exact Hall.
Qed.

Lemma match_here_no_segment :
  forall s id post,
    match_here s = None -> ~ segment_at s [] id post.
Proof.
  intros s id post H (E & Hne & Hall). cbn [app] in E.
  unfold match_here in H. subst s.
  rewrite strip_prefix_app, take_while_app in H by exact Hall.
  destruct id as [|c id]; [congruence|]. cbn in H. discriminate.
Qed.

(** A segment of [c :: s] that does not start at the head is one of [s]. *)
Lemma segment_at_tail :
  forall c s pre id post,
    segment_at (c :: s) pre id post ->
    pre <> [] ->
    exists pre', pre = c :: pre' /\ segment_at s pre' id post.
Proof.
  intros c s [|c' pre'] id post (E & Hne & Hall) Hpre; [congruence|].
  cbn in E. injection E as Ec E. subst c'.
  exists pre'. split; [reflexivity|]. split; [exact E|]. split; assumption.
Qed.

Lemma segment_at_cons :
  forall c s pre id post,
    segment_at s pre id post -> segment_at (c :: s) (c :: pre) id post.
Proof.
  intros c s pre id post (E & Hne & Hall).
  split; [|split]; try assumption. cbn. f_equal. exact E.
Qed.

Lemma re_search_None :
  forall s, re_search s = None -> ~ has_segment s.
Proof.
  induction s as [|c s IH]; intros H (pre & id & post & Hseg); cbn [re_search] in H.
  - destruct (match_here []) eqn:Hm; [discriminate|].
    destruct pre as [|c pre].
    + exact (match_here_no_segment [] id post Hm Hseg).
    + destruct Hseg as (E & _). discriminate.
  - destruct (match_here (c :: s)) eqn:Hm; [discriminate|].
    destruct pre as [|c' pre].
    + exact (match_here_no_segment (c :: s) id post Hm Hseg).
    + destruct (segment_at_tail c s (c' :: pre) id post Hseg) as (pre' & _ & Hseg');
        [discriminate|].
      apply (IH H). exists pre', id, post. exact Hseg'.
Qed.

(** The match found is the leftmost segment, with its whole run. *)
Lemma re_search_Some :
  forall s id,
    re_search s = Some id ->
    exists pre post,
      segment_at s pre id post
      /\ (forall c rest, post = c :: rest -> is_id_char c = false)
      /\ (forall pre' id' post',
             segment_at s pre' id' post' -> (List.length pre <= List.length pre')%nat).
Proof.
  induction s as [|c s IH]; intros id H; cbn [re_search] in H.
  - destruct (match_here []) eqn:Hm; [|discriminate].
    injection H as H. subst.
    destruct (match_here_segment [] id Hm) as (post & Hseg & Hpost).
    exists [], post. repeat split; try apply Hseg; try exact Hpost.
    intros. cbn. lia.
  - destruct (match_here (c :: s)) eqn:Hm.
    + injection H as H. subst.
      destruct (match_here_segment (c :: s) id Hm) as (post & Hseg & Hpost).
      exists [], post. repeat split; try apply Hseg; try exact Hpost.
      intros. cbn. lia.
    + destruct (IH id H) as (pre & post & Hseg & Hpost & Hleft).
      exists (c :: pre), post. split; [|split].
      * apply segment_at_cons. exact Hseg.
      * exact Hpost.
      * intros [|c' pre'] id' post' Hseg'.
        -- exfalso. exact (match_here_no_segment (c :: s) id' post' Hm Hseg').
        -- destruct (segment_at_tail c s (c' :: pre') id' post' Hseg')
             as (pre'' & Epre & Hseg''); [discriminate|].
           injection Epre as _ Epre. subst pre''.
           cbn [List.length]. apply le_n_S. exact (Hleft pre' id' post' Hseg'').
Qed.

Lemma re_search_has_segment :
  forall s, has_segment s -> exists id, re_search s = Some id.
Proof.
  intros s Hseg. destruct (re_search s) as [id|] eqn:H.
  - exists id. reflexivity.
  - exfalso. exact (re_search_None s H Hseg).
Qed.

(** ** Links of Google Docs *)

Lemma re_search_skip :
  forall c s, match_here (c :: s) = None -> re_search (c :: s) = re_search s.
Proof.
  intros c s H. cbn [re_search]. rewrite H. reflexivity.
Qed.

Lemma re_search_hit :
  forall s id, match_here s = Some id -> re_search s = Some id.
Proof.
  intros [|c s] id H; cbn [re_search]; rewrite H; reflexivity.
Qed.

Lemma match_here_whole :
  forall id post,
    id <> [] ->
    forallb is_id_char id = true ->
    (forall c rest, post = c :: rest -> is_id_char c = false) ->
    match_here (slash_d_slash ++ id ++ post) = Some id.
Proof.
  intros id post Hne Hall Hpost. unfold match_here.
  rewrite strip_prefix_app, take_while_app by exact Hall.
  assert (E : take_while is_id_char post = []).
  { destruct post as [|c rest]; [reflexivity|].
    cbn [take_while]. rewrite (Hpost c rest eq_refl). reflexivity. }
  rewrite E, app_nil_r. destruct id as [|c id]; [congruence | reflexivity].
Qed.

(** X11. The address [load_document_text] builds leads back to the same
    document: for a non-empty id made of the characters of the class, the
    id found in a link that reads [https://docs.google.com/document/d/],
    the id, and then nothing or something that starts outside the class,
    is that id; the export address built from an id is such a link. *)
Theorem google_doc_link_id :
  forall id : str,
    id <> [] ->
    forallb is_id_char id = true ->
    (forall post,
        (forall c rest, post = c :: rest -> is_id_char c = false) ->
        re_search (export_prefix ++ id ++ post) = Some id)
    /\ re_search (export_url id) = Some id.
Proof.
  intros id Hne Hall.
  assert (H : forall post,
             (forall c rest, post = c :: rest -> is_id_char c = false) ->
             re_search (export_prefix ++ id ++ post) = Some id).
  { intros post Hpost. unfold export_prefix. cbn [app].
    do 32 (rewrite re_search_skip by (vm_compute; reflexivity)).
    apply re_search_hit. exact (match_here_whole id post Hne Hall Hpost). }
  split; [exact H|].
  unfold export_url. apply H. unfold export_suffix.
  intros c rest E. injection E as E _. subst c. reflexivity.
Qed.

(** ** Whitespace around chunks *)

Lemma lstrip_clean :
  forall s, lstrip s = [] \/ exists c r, lstrip s = c :: r /\ isspace c = false.
Proof.
  induction s as [|a s IH]; cbn [lstrip].
  - left. reflexivity.
  - destruct (isspace a) eqn:E; [exact IH|]. right. exists a, s. auto.
Qed.

Lemma lstrip_fixed :
  forall c r, isspace c = false -> lstrip (c :: r) = c :: r.
Proof.
  intros c r H. cbn [lstrip]. rewrite H. reflexivity.
Qed.

Lemma lstrip_idem : forall s, lstrip (lstrip s) = lstrip s.
Proof.
  intros s. destruct (lstrip_clean s) as [E|(c & r & E & Hc)]; rewrite E.
  - reflexivity.
  - apply lstrip_fixed. exact Hc.
Qed.

Lemma lstrip_snoc :
  forall l c, isspace c = false -> lstrip (l ++ [c]) = lstrip l ++ [c].
Proof.
  induction l as [|a l IH]; intros c H; cbn [app lstrip].
  - rewrite H. reflexivity.
  - destruct (isspace a); [apply IH; exact H | reflexivity].
Qed.

Lemma rstrip_cons :
  forall c r, isspace c = false -> rstrip (c :: r) = c :: rstrip r.
Proof.
  intros c r H. unfold rstrip. cbn [rev].
  rewrite (lstrip_snoc (rev r) c H), rev_unit. reflexivity.
Qed.

Lemma rstrip_idem : forall s, rstrip (rstrip s) = rstrip s.
Proof.
  intros s. unfold rstrip. rewrite rev_involutive, lstrip_idem. reflexivity.
Qed.

Lemma strip_idem : forall s, strip (strip s) = strip s.
Proof.
  intros s. unfold strip.
  assert (E : lstrip (rstrip (lstrip s)) = rstrip (lstrip s)).
  { destruct (lstrip_clean s) as [E|(c & r & E & Hc)]; rewrite E.
    - reflexivity.
    - rewrite (rstrip_cons c r Hc). apply lstrip_fixed. exact Hc. }
  rewrite E. apply rstrip_idem.
Qed.

Lemma lstrip_blanks :
  forall pre x, forallb isspace pre = true -> lstrip (pre ++ x) = lstrip x.
Proof.
  induction pre as [|c pre IH]; intros x H; cbn [app lstrip].
  - reflexivity.
  - cbn [forallb] in H. apply andb_prop in H. destruct H as [Hc H].
    rewrite Hc. apply IH. exact H.
Qed.

Lemma lstrip_split :
  forall s, exists pre, s = pre ++ lstrip s /\ forallb isspace pre = true.
Proof.
  induction s as [|c s (pre & E & H)]; cbn [lstrip].
  - exists []. split; reflexivity.
  - destruct (isspace c) eqn:Hc.
    + exists (c :: pre). split; [cbn [app]; f_equal; exact E|].
      cbn [forallb]. rewrite Hc, H. reflexivity.
    + exists []. split; reflexivity.
Qed.

Lemma forallb_rev :
  forall (p : char -> bool) l, forallb p l = true -> forallb p (rev l) = true.
Proof.
  intros p l H. apply forallb_forall. intros x Hx.
  apply in_rev in Hx. rewrite forallb_forall in H. apply H. exact Hx.
Qed.

Lemma rstrip_blanks :
  forall x post, forallb isspace post = true -> rstrip (x ++ post) = rstrip x.
Proof.
  intros x post H. unfold rstrip.
  rewrite rev_app_distr, (lstrip_blanks (rev post) (rev x) (forallb_rev _ _ H)).
  reflexivity.
Qed.

Lemma rstrip_split :
  forall s, exists post, s = rstrip s ++ post /\ forallb isspace post = true.
Proof.
  intros s. destruct (lstrip_split (rev s)) as (q & E & H).
  exists (rev q). split; [|apply forallb_rev; exact H].
  unfold rstrip. rewrite <- rev_app_distr, <- E, rev_involutive. reflexivity.
Qed.

Lemma clean_nil : clean [] = true.
Proof. vm_compute. reflexivity. Qed.

Lemma clean_ends :
  forall c r,
    clean (c :: r) = true ->
    isspace c = false /\ isspace (last (c :: r) 0%N) = false.
Proof.
  intros c r H. unfold clean in H. cbn [hd] in H.
  apply andb_prop in H. destruct H as [H1 H2].
  split; apply negb_true_iff; assumption.
Qed.


Lemma rstrip_clean_id : forall s, clean s = true -> rstrip s = s.
Proof.
  intros [|c r] H; [reflexivity|].
  destruct (clean_ends c r H) as [_ Hl].
  unfold rstrip.
  assert (Hne : c :: r <> []) by discriminate.
  rewrite (app_removelast_last 0%N Hne) at 1.
  rewrite rev_unit, (lstrip_fixed _ _ Hl), <- rev_unit, rev_involutive.
  symmetry. apply app_removelast_last. exact Hne.
Qed.

(** The core of a text between blanks is what [strip] returns. *)
Lemma strip_core :
  forall pre core post,
    forallb isspace pre = true ->
    forallb isspace post = true ->
    clean core = true ->
    strip (pre ++ core ++ post) = core.
Proof.
  intros pre core post Hpre Hpost Hc. unfold strip.
  rewrite (lstrip_blanks pre (core ++ post) Hpre).
  destruct core as [|c r].
  - cbn [app]. rewrite <- (app_nil_r post), (lstrip_blanks post [] Hpost).
    reflexivity.
  - cbn [app]. rewrite (lstrip_fixed c (r ++ post) (proj1 (clean_ends c r Hc))).
    change (c :: r ++ post) with ((c :: r) ++ post).
    rewrite (rstrip_blanks (c :: r) post Hpost). apply rstrip_clean_id. exact Hc.
Qed.

Lemma strip_split :
  forall s, exists pre post,
    s = pre ++ strip s ++ post
    /\ forallb isspace pre = true
    /\ forallb isspace post = true.
Proof.
  intros s. destruct (lstrip_split s) as (pre & E1 & H1).
  destruct (rstrip_split (lstrip s)) as (post & E2 & H2).
  exists pre, post. split; [|split; assumption].
  unfold strip. rewrite <- E2. exact E1.
Qed.

Lemma clean_strip : forall s, clean (strip s) = true.
Proof.
  intros s. unfold strip.
  destruct (lstrip_clean s) as [E|(c & r & E & Hc)]; rewrite E.
  - reflexivity.
  - rewrite (rstrip_cons c r Hc). unfold clean. cbn [hd]. rewrite Hc. cbn [negb andb].
    rewrite <- (rstrip_cons c r Hc). unfold rstrip.
    destruct (lstrip_clean (rev (c :: r))) as [E'|(c' & r' & E' & Hc')].
    + exfalso. pose proof (rstrip_cons c r Hc) as H. unfold rstrip in H.
      rewrite E' in H. discriminate H.
    + rewrite E'. cbn [rev]. rewrite last_last, Hc'. reflexivity.
Qed.

Lemma isspace_printable :
  forall c, (33 <= c <= 126)%N -> isspace c = false.
Proof.
  intros c H. unfold isspace.
  assert (E1 : (c <=? 13)%N = false) by (apply N.leb_gt; lia).
  assert (E2 : (c <=? 32)%N = false) by (apply N.leb_gt; lia).
  assert (E3 : (c =? 133)%N = false) by (apply N.eqb_neq; lia).
  assert (E4 : (c =? 160)%N = false) by (apply N.eqb_neq; lia).
  assert (E5 : (c =? 5760)%N = false) by (apply N.eqb_neq; lia).
  assert (E6 : (8192 <=? c)%N = false) by (apply N.leb_gt; lia).
  assert (E7 : (c =? 8232)%N = false) by (apply N.eqb_neq; lia).
  assert (E8 : (c =? 8233)%N = false) by (apply N.eqb_neq; lia).
  assert (E9 : (c =? 8239)%N = false) by (apply N.eqb_neq; lia).
  assert (E10 : (c =? 8287)%N = false) by (apply N.eqb_neq; lia).
  assert (E11 : (c =? 12288)%N = false) by (apply N.eqb_neq; lia).
  rewrite E1, E2, E3, E4, E5, E6, E7, E8, E9, E10, E11.
  rewrite !andb_false_r. reflexivity.
Qed.

Lemma make_context_cores :
  forall docs cores,
    Forall2 (fun d core =>
               exists pre post,
                 page_content d = pre ++ core ++ post
                 /\ forallb isspace pre = true
                 /\ forallb isspace post = true
                 /\ clean core = true) docs cores ->
    map (fun doc => strip (page_content doc)) docs = cores.
Proof.
  intros docs cores F. induction F as [|d core docs cores (pre & post & E & H1 & H2 & Hc) F IH].
  - reflexivity.
  - cbn [map]. rewrite IH, E, (strip_core pre core post H1 H2 Hc). reflexivity.
Qed.

(** X12. Whitespace around a chunk never reaches the model.  The blank,
    the tab, the line feed, the carriage return and the no-break space are
    whitespace and no printable ASCII character is; [strip] of blanks, a
    core with no whitespace at either end, and blanks again, is the core;
    every text is of that form around its [strip], which is therefore
    idempotent; and the context made of chunks with blanks around their
    cores is the cores joined by a blank line, the same as if the chunks
    had been stripped before they were indexed. *)
Theorem context_ignores_outer_whitespace :
  (isspace 32%N = true /\ isspace 9%N = true /\ isspace 10%N = true
   /\ isspace 13%N = true /\ isspace 160%N = true
   /\ forall c, (33 <= c <= 126)%N -> isspace c = false)
  /\ (forall pre core post,
         forallb isspace pre = true ->
         forallb isspace post = true ->
         clean core = true ->
         strip (pre ++ core ++ post) = core)
  /\ (forall s,
         clean (strip s) = true
         /\ exists pre post,
             s = pre ++ strip s ++ post
             /\ forallb isspace pre = true
             /\ forallb isspace post = true)
  /\ (forall s, strip (strip s) = strip s)
  /\ (forall docs,
         make_context
           (map (fun d => {| page_content := strip (page_content d) |}) docs)
         = make_context docs)
  /\ (forall docs cores,
         Forall2 (fun d core =>
                    exists pre post,
                      page_content d = pre ++ core ++ post
                      /\ forallb isspace pre = true
                      /\ forallb isspace post = true
                      /\ clean core = true) docs cores ->
         make_context docs = join [nl; nl] cores).
Proof.
  split.
  { repeat split; try reflexivity. exact isspace_printable. }
  split; [exact strip_core|].
  split.
  { intros s. split; [apply clean_strip | apply strip_split]. }
  split; [exact strip_idem|]. split.
  - intros docs. unfold make_context. rewrite map_map. cbn [page_content].
    f_equal. apply map_ext. intros d. apply strip_idem.
  - intros docs cores F. unfold make_context.
    rewrite (make_context_cores docs cores F). reflexivity.
Qed.

Section AskContext.

Context {World Embeddings FAISS Vector Client : Type}.
Context {C : Collaborators World Embeddings FAISS Vector Client}.


End AskContext.

Section Loader.

Context {World Embeddings FAISS Vector Client : Type}.
Context {C : Collaborators World Embeddings FAISS Vector Client}.

Ltac open_loader :=
  cbv beta delta [load_document_text raise_for_status bind ret raise call log];
  cbn [fst snd total_requests_count vector_db stdout world trace].

(** C9. A link without a [/d/<id>] segment makes [load_document_text]
    raise [ValueError] ("Некорректная ссылка на Google Doc") with no call
    made and the outside world untouched.  A link with one yields the id
    of its leftmost segment, taken to the end of its run; the address
    "https://docs.google.com/document/d/", the id, "/export?format=txt" is
    fetched, once; what the fetch raises is raised; a reply with a status
    from 200 to 299 gives its text, and a reply with any other status
    raises [HTTPStatusError]. *)
Theorem load_document_text_checks_link :
  forall (url : str) (s : State),
    (~ has_segment url ->
     load_document_text url s
     = (Err (ValueError (u "Некорректная ссылка на Google Doc")),
        log [Raised (ValueError (u "Некорректная ссылка на Google Doc"))] s))
    /\ (has_segment url ->
        exists pre id post,
          segment_at url pre id post
          /\ (forall c rest, post = c :: rest -> is_id_char c = false)
          /\ (forall pre' id' post',
                 segment_at url pre' id' post' ->
                 (List.length pre <= List.length pre')%nat)
          /\ re_search url = Some id
          /\ (exists t,
                 trace (snd (load_document_text url s))
                 = trace s
                   ++ Called (HttpGet (u "https://docs.google.com/document/d/"
                                         ++ id ++ u "/export?format=txt")) :: t
                 /\ calls is_http_get t = 0%nat)
          /\ (forall e w,
                 client_get (u "https://docs.google.com/document/d/"
                               ++ id ++ u "/export?format=txt") (world s)
                 = (Err e, w) ->
                 fst (load_document_text url s) = Err e)
          /\ (forall r w,
                 client_get (u "https://docs.google.com/document/d/"
                               ++ id ++ u "/export?format=txt") (world s)
                 = (Ok r, w) ->
                 ((200 <= status_code r <= 299)%Z ->
                  fst (load_document_text url s) = Ok (text r))
                 /\ ((status_code r < 200 \/ 299 < status_code r)%Z ->
                     fst (load_document_text url s) = Err (HTTPStatusError r)))).
Proof.
  intros url s. split.
  - intros Hno. rewrite <- invalid_link_text.
    destruct (re_search url) as [id|] eqn:H.
    + exfalso. apply Hno.
      destruct (re_search_Some url id H) as (pre & post & Hseg & _).
      exists pre, id, post. exact Hseg.
    + open_loader. rewrite H. reflexivity.
  - intros Hseg. destruct (re_search_has_segment url Hseg) as (id & H).
    destruct (re_search_Some url id H) as (pre & post & Hs & Hpost & Hleft).
    exists pre, id, post. rewrite <- (export_url_text id).
    split; [exact Hs|]. split; [exact Hpost|]. split; [exact Hleft|].
    split; [exact H|].
    open_loader. rewrite H.
    split; [|split].
    + destruct (client_get (export_url id) (world s)) as [[r|e] w];
        cbn [fst snd total_requests_count vector_db stdout world trace];
        [destruct (is_success r)|];
        cbn [fst snd total_requests_count vector_db stdout world trace];
        repeat rewrite <- app_assoc; cbn [app]; eexists; split; reflexivity.
    + intros e w E. rewrite E. reflexivity.
    + intros r w E. rewrite E.
      cbn [fst snd total_requests_count vector_db stdout world trace].
      split; intros Hr.
      * assert (Hb : is_success r = true).
        { unfold is_success. apply andb_true_intro.
          split; apply Z.leb_le; lia. }
        rewrite Hb. reflexivity.
      * assert (Hb : is_success r = false).
        { unfold is_success. apply andb_false_iff.
          destruct Hr as [Hr|Hr]; [left | right]; apply Z.leb_gt; lia. }
        rewrite Hb. reflexivity.
Qed.

End Loader.

(** * The index of the specification *)

Section SortedLists.

Variable A : Type.
Variable R : A -> A -> Prop.
Hypothesis R_irrefl : forall x, ~ R x x.
Hypothesis R_trans : forall x y z, R x y -> R y z -> R x z.

Lemma strongly_sorted_unique :
  forall l1 l2,
    StronglySorted R l1 ->
    StronglySorted R l2 ->
    (forall x, In x l1 <-> In x l2) ->
    l1 = l2.
Proof.
  induction l1 as [|a t1 IH]; intros [|b t2] S1 S2 Hsame.
  - reflexivity.
  - exfalso. apply (proj2 (Hsame b)). left. reflexivity.
  - exfalso. apply (proj1 (Hsame a)). left. reflexivity.
  - apply StronglySorted_inv in S1. destruct S1 as [S1 F1].
    apply StronglySorted_inv in S2. destruct S2 as [S2 F2].
    rewrite Forall_forall in F1, F2.
    assert (Hab : a = b).
    { destruct (proj1 (Hsame a) (or_introl eq_refl)) as [E|Ha]; [symmetry; exact E|].
      destruct (proj2 (Hsame b) (or_introl eq_refl)) as [E|Hb]; [exact E|].
      exfalso. apply (R_irrefl a). apply (R_trans a b a); auto. }
    subst b. f_equal. apply IH; try assumption.
    intros x. split; intros Hx.
    + destruct (proj1 (Hsame x) (or_intror Hx)) as [E|H]; [|exact H].
      subst x. exfalso. apply (R_irrefl a). auto.
    + destruct (proj2 (Hsame x) (or_intror Hx)) as [E|H]; [|exact H].
      subst x. exfalso. apply (R_irrefl a). auto.
Qed.

Lemma strongly_sorted_app :
  forall l1 l2,
    StronglySorted R (l1 ++ l2) ->
    StronglySorted R l1
    /\ (forall x y, In x l1 -> In y l2 -> R x y).
Proof.
  induction l1 as [|a l1 IH]; intros l2 H; cbn in *.
  - split; [constructor|]. intros x y [].
  - apply StronglySorted_inv in H. destruct H as [H F].
    destruct (IH l2 H) as [S Hx]. rewrite Forall_forall in F.
    split.
    + constructor; [exact S|]. apply Forall_forall. intros x Hin.
      apply F. apply in_or_app. left. exact Hin.
    + intros x y [E|Hin] Hy.
      * subst x. apply F. apply in_or_app. right. exact Hy.
      * apply Hx; assumption.
Qed.

Lemma strongly_sorted_NoDup :
  forall l, StronglySorted R l -> NoDup l.
Proof.
  induction l as [|a l IH]; intros H.
  - constructor.
  - apply StronglySorted_inv in H. destruct H as [H F].
    rewrite Forall_forall in F.
    constructor; [|apply IH; exact H].
    intros Hin. apply (R_irrefl a). apply F. exact Hin.
Qed.

End SortedLists.

Section IndexFacts.

Import VectorIndex.

Variable distance : EmbeddingVector -> EmbeddingVector -> Q.

Lemma ahead_irrefl : forall x, ~ ahead x x.
Proof.
  intros x [H|[_ H]].
  - exact (Qlt_irrefl _ H).
  - exact (Nat.lt_irrefl _ H).
Qed.

Lemma ahead_trans : forall x y z, ahead x y -> ahead y z -> ahead x z.
Proof.
  intros x y z [H1|[E1 L1]] [H2|[E2 L2]].
  - left. exact (Qlt_trans _ _ _ H1 H2).
  - left. rewrite <- E2. exact H1.
  - left. rewrite E1. exact H2.
  - right. split; [rewrite E1; exact E2 | exact (Nat.lt_trans _ _ _ L1 L2)].
Qed.

Lemma before_ahead :
  forall index v p q,
    before distance index v p q
    <-> ahead (p, score distance index v p) (q, score distance index v q).
Proof. intros. unfold before, ahead. cbn. tauto. Qed.

Lemma before_irrefl : forall index v p, ~ before distance index v p p.
Proof.
  intros index v p H.
  exact (ahead_irrefl _ (proj1 (before_ahead index v p p) H)).
Qed.

Lemma before_trans :
  forall index v p q r,
    before distance index v p q -> before distance index v q r ->
    before distance index v p r.
Proof.
  intros index v p q r H1 H2. apply before_ahead.
  exact (ahead_trans _ _ _ (proj1 (before_ahead index v p q) H1)
                           (proj1 (before_ahead index v q r) H2)).
Qed.

(** ** The sort *)

Lemma insert_perm : forall x l, Permutation (insert x l) (x :: l).
Proof.
  induction l as [|y r IH]; cbn.
  - apply Permutation_refl.
  - destruct (Qle_bool (snd x) (snd y)).
    + apply Permutation_refl.
    + apply Permutation_trans with (y :: x :: r).
      * apply perm_skip. exact IH.
      * apply perm_swap.
Qed.

Lemma sort_perm : forall l, Permutation (sort l) l.
Proof.
  induction l as [|x r IH]; cbn.
  - apply Permutation_refl.
  - apply Permutation_trans with (x :: sort r).
    + apply insert_perm.
    + apply perm_skip. exact IH.
Qed.

Lemma insert_sorted :
  forall x l,
    StronglySorted ahead l ->
    Forall (fun y => (fst x < fst y)%nat) l ->
    StronglySorted ahead (insert x l).
Proof.
  induction l as [|y r IH]; intros S F; cbn.
  - repeat constructor.
  - apply StronglySorted_inv in S. destruct S as [S Fy].
    inversion F as [|y' r' Lxy Fr]; subst.
    destruct (Qle_bool (snd x) (snd y)) eqn:E.
    + apply Qle_bool_iff in E.
      assert (Hxy : ahead x y).
      { apply Qle_lteq in E. destruct E as [E|E].
        - left. exact E.
        - right. split; assumption. }
      constructor.
      * constructor; assumption.
      * constructor; [exact Hxy|].
        eapply Forall_impl; [|exact Fy].
        intros z Hz. exact (ahead_trans _ _ _ Hxy Hz).
    + assert (Hyx : ahead y x).
      { left. apply Qnot_le_lt. intros H. apply Qle_bool_iff in H. congruence. }
      constructor.
      * apply IH; assumption.
      * apply Forall_forall. intros z Hz.
        apply (Permutation_in _ (insert_perm x r)) in Hz.
        destruct Hz as [Ez|Hz].
        -- subst z. exact Hyx.
        -- rewrite Forall_forall in Fy. apply Fy. exact Hz.
Qed.

Lemma sort_sorted :
  forall l,
    StronglySorted (fun x y => (fst x < fst y)%nat) l ->
    StronglySorted ahead (sort l).
Proof.
  induction l as [|x r IH]; intros S; cbn.
  - constructor.
  - apply StronglySorted_inv in S. destruct S as [S F].
    apply insert_sorted.
    + apply IH. exact S.
    + apply Forall_forall. intros y Hy.
      apply (Permutation_in _ (sort_perm r)) in Hy.
      rewrite Forall_forall in F. apply F. exact Hy.
Qed.

Lemma scored_seq_sorted :
  forall (f : nat -> Q) n start,
    StronglySorted (fun x y : nat * Q => (fst x < fst y)%nat)
                   (map (fun p => (p, f p)) (seq start n)).
Proof.
  induction n as [|n IH]; intros start; cbn.
  - constructor.
  - constructor; [apply IH|].
    apply Forall_forall. intros y Hy. apply in_map_iff in Hy.
    destruct Hy as (p & E & Hp). subst y. apply in_seq in Hp. cbn. lia.
Qed.

(** ** The ranking *)

Lemma ranking_perm :
  forall index v,
    Permutation (map fst (ranking distance index v)) (seq 0 (List.length index)).
Proof.
  intros index v. unfold ranking.
  eapply Permutation_trans.
  - apply Permutation_map. apply sort_perm.
  - rewrite map_map. cbn [fst]. rewrite map_id. apply Permutation_refl.
Qed.

Lemma ranking_scores :
  forall index v x,
    In x (ranking distance index v) -> snd x = score distance index v (fst x).
Proof.
  intros index v x H. unfold ranking in H.
  apply (Permutation_in _ (sort_perm _)) in H.
  apply in_map_iff in H. destruct H as (p & E & _). subst x. reflexivity.
Qed.

Lemma ranking_sorted :
  forall index v, StronglySorted ahead (ranking distance index v).
Proof.
  intros index v. unfold ranking. apply sort_sorted. apply scored_seq_sorted.
Qed.

Lemma ranking_length :
  forall index v, List.length (ranking distance index v) = List.length index.
Proof.
  intros index v.
  rewrite <- (length_map fst), (Permutation_length (ranking_perm index v)).
  apply length_seq.
Qed.

Lemma ahead_before :
  forall index v x y,
    snd x = score distance index v (fst x) ->
    snd y = score distance index v (fst y) ->
    ahead x y ->
    before distance index v (fst x) (fst y).
Proof.
  intros index v x y Hx Hy H. unfold before. rewrite <- Hx, <- Hy. exact H.
Qed.

Lemma sorted_positions :
  forall index v l,
    (forall x, In x l -> snd x = score distance index v (fst x)) ->
    StronglySorted ahead l ->
    StronglySorted (before distance index v) (map fst l).
Proof.
  induction l as [|x l IH]; intros Hs S; cbn.
  - constructor.
  - apply StronglySorted_inv in S. destruct S as [S F].
    constructor.
    + apply IH; [|exact S]. intros y Hy. apply Hs. right. exact Hy.
    + apply Forall_forall. intros q Hq. apply in_map_iff in Hq.
      destruct Hq as (y & E & Hy). subst q.
      rewrite Forall_forall in F.
      apply ahead_before; [apply Hs; left; reflexivity | apply Hs; right; exact Hy | auto].
Qed.

Lemma in_firstn :
  forall (A : Type) n (l : list A) x, In x (firstn n l) -> In x l.
Proof.
  intros A n l x H. rewrite <- (firstn_skipn n l). apply in_or_app. left. exact H.
Qed.

(** The positions the reference query returns meet the contract. *)
Lemma query_picks :
  forall index v k,
    picks distance index v k
          (map fst (firstn (Z.to_nat k) (ranking distance index v))).
Proof.
  intros index v k.
  pose proof (ranking_sorted index v) as S.
  rewrite <- (firstn_skipn (Z.to_nat k) (ranking distance index v)) in S.
  apply strongly_sorted_app in S. destruct S as [S Hcross].
  constructor.
  - intros p Hp. apply in_map_iff in Hp. destruct Hp as (x & E & Hx). subst p.
    apply in_firstn in Hx.
    assert (Hin : In (fst x) (map fst (ranking distance index v))).
    { apply in_map. exact Hx. }
    apply (Permutation_in _ (ranking_perm index v)) in Hin.
    apply in_seq in Hin. lia.
  - rewrite length_map, length_firstn, ranking_length. reflexivity.
  - apply sorted_positions; [|exact S].
    intros x Hx. apply ranking_scores. apply in_firstn in Hx. exact Hx.
  - intros p q Hp Hq Hout.
    apply in_map_iff in Hp. destruct Hp as (x & E & Hx). subst p.
    assert (Hin : In q (map fst (ranking distance index v))).
    { apply (Permutation_in _ (Permutation_sym (ranking_perm index v))).
      apply in_seq. lia. }
    rewrite <- (firstn_skipn (Z.to_nat k) (ranking distance index v)) in Hin.
    rewrite map_app in Hin. apply in_app_or in Hin.
    destruct Hin as [Hin|Hin]; [contradiction|].
    apply in_map_iff in Hin. destruct Hin as (y & E & Hy). subst q.
    apply ahead_before.
    + apply ranking_scores. apply in_firstn in Hx. exact Hx.
    + apply ranking_scores.
      rewrite <- (firstn_skipn (Z.to_nat k) (ranking distance index v)).
      apply in_or_app. right. exact Hy.
    + apply Hcross; assumption.
Qed.

Lemma query_meets_contract :
  forall index v k,
    meets_contract distance index v k (query distance index v k).
Proof.
  intros index v k. unfold meets_contract, query.
  destruct (same_dimension index v); [|reflexivity].
  exists (map fst (firstn (Z.to_nat k) (ranking distance index v))).
  split; [apply query_picks|].
  rewrite map_map. reflexivity.
Qed.

(** ** One answer only *)

Lemma incl_or_missing :
  forall l1 l2 : list nat,
    incl l1 l2 \/ exists x, In x l1 /\ ~ In x l2.
Proof.
  induction l1 as [|a l1 IH]; intros l2.
  - left. intros x [].
  - destruct (in_dec Nat.eq_dec a l2) as [Ha|Ha].
    + destruct (IH l2) as [H|(x & Hx & Hn)].
      * left. intros x [E|Hx]; [subst; exact Ha | apply H; exact Hx].
      * right. exists x. split; [right; exact Hx | exact Hn].
    + right. exists a. split; [left; reflexivity | exact Ha].
Qed.

(** If one answer has a position the other lacks, it has all of the
    other's: what an answer leaves out is farther than all it holds. *)
Lemma picks_nested :
  forall index v k ps1 ps2 x,
    picks distance index v k ps1 ->
    picks distance index v k ps2 ->
    In x ps1 -> ~ In x ps2 ->
    incl ps2 ps1.
Proof.
  intros index v k ps1 ps2 x P1 P2 Hx Hnx y Hy.
  destruct (in_dec Nat.eq_dec y ps1) as [H|H]; [exact H|].
  exfalso. apply (before_irrefl index v x).
  apply (before_trans index v x y x).
  - apply (picks_nearest _ _ _ _ _ P1); [exact Hx | | exact H].
    apply (picks_valid _ _ _ _ _ P2). exact Hy.
  - apply (picks_nearest _ _ _ _ _ P2); [exact Hy | | exact Hnx].
    apply (picks_valid _ _ _ _ _ P1). exact Hx.
Qed.

Lemma picks_same_positions :
  forall index v k ps1 ps2,
    picks distance index v k ps1 ->
    picks distance index v k ps2 ->
    incl ps1 ps2.
Proof.
  intros index v k ps1 ps2 P1 P2.
  pose proof (strongly_sorted_NoDup _ _ (before_irrefl index v) _
                (picks_sorted _ _ _ _ _ P2)) as N2.
  pose proof (picks_length _ _ _ _ _ P1) as L1.
  pose proof (picks_length _ _ _ _ _ P2) as L2.
  destruct (incl_or_missing ps1 ps2) as [H|(x & Hx & Hnx)]; [exact H|].
  apply NoDup_length_incl; [exact N2 | lia |].
  exact (picks_nested index v k ps1 ps2 x P1 P2 Hx Hnx).
Qed.

Lemma picks_unique :
  forall index v k ps1 ps2,
    picks distance index v k ps1 ->
    picks distance index v k ps2 ->
    ps1 = ps2.
Proof.
  intros index v k ps1 ps2 P1 P2.
  apply (strongly_sorted_unique _ (before distance index v)).
  - apply before_irrefl.
  - apply before_trans.
  - exact (picks_sorted _ _ _ _ _ P1).
  - exact (picks_sorted _ _ _ _ _ P2).
  - intros x. split.
    + apply (picks_same_positions index v k ps1 ps2 P1 P2).
    + apply (picks_same_positions index v k ps2 ps1 P2 P1).
Qed.

(** C7. For an index, a query vector and a [k], the reference query gives
    an answer that meets the contract of the specification, and any two
    answers that meet it are the same, entry for entry and in the same
    order: the distances fix the order, and positions of insertion fix it
    among equal distances. *)
Theorem query_deterministic :
  forall (index : VectorIndex) (v : EmbeddingVector) (k : Z),
    meets_contract distance index v k (query distance index v k)
    /\ forall o1 o2,
        meets_contract distance index v k o1 ->
        meets_contract distance index v k o2 ->
        o1 = o2.
Proof.
  intros index v k. split; [apply query_meets_contract|].
  intros o1 o2 H1 H2. unfold meets_contract in *.
  destruct (same_dimension index v).
  - destruct H1 as (ps1 & P1 & E1). destruct H2 as (ps2 & P2 & E2).
    subst o1 o2. rewrite (picks_unique index v k ps1 ps2 P1 P2). reflexivity.
  - congruence.
Qed.

End IndexFacts.

(** * The program on concrete inputs *)

Import Fake.

(** ** Strings and links *)

Example strip_both_ends :
  strip ([nl; 32%N] ++ u "a b" ++ [9%N; 160%N; nl]) = u "a b".
Proof. vm_compute. reflexivity. Qed.

Example strip_keeps_inner_blanks : strip (u " a  b ") = u "a  b".
Proof. vm_compute. reflexivity. Qed.

Example join_blank_line :
  join [nl; nl] [u "a"; u "b"; u "c"] = u "a" ++ [nl; nl] ++ u "b" ++ [nl; nl] ++ u "c".
Proof. vm_compute. reflexivity. Qed.

Example join_nothing : join [nl; nl] [] = [].
Proof. reflexivity. Qed.

Example re_search_leftmost :
  re_search (u "x/d/ab-c_9!/d/zz") = Some (u "ab-c_9").
Proof. vm_compute. reflexivity. Qed.

Example re_search_skips_empty_id : re_search (u "/d//d/z?") = Some (u "z").
Proof. vm_compute. reflexivity. Qed.

Example re_search_no_id : re_search (u "https://docs.google.com/document/d/") = None.
Proof. vm_compute. reflexivity. Qed.

Example garbled_link_is_refused :
  fst (load_document_text plain_link (fresh healthy)) = Err (ValueError invalid_link).
Proof. vm_compute. reflexivity. Qed.

(** ** Runs of the application *)

Example healthy_run :
  fst (run_app [GetRoot; PostAsk (asks hi); GetStats] healthy)
  = [Ok (LandingPage (str_of_int 0));
     Ok (Answer (Some yes));
     Ok (Stats 1 (str_of_int 0))].
Proof. vm_compute. reflexivity. Qed.

Example failed_run :
  fst (run_app [PostAsk (asks hi); GetStats; PostAsk (asks hi)] no_document)
  = [Err (HTTPException 503 not_ready_detail);
     Ok (Stats 1 (str_of_int 0));
     Err (HTTPException 503 not_ready_detail)].
Proof. vm_compute. reflexivity. Qed.

(** ** The statements at these inputs *)

(** With a failed start-up the question is turned away, nothing called. *)
Lemma ask_expert_not_ready_witness :
  exists s',
    ask_expert (asks hi) failed
    = (Err (HTTPException 503 not_ready_detail), s')
    /\ trace s' = trace failed ++ [Raised (HTTPException 503 not_ready_detail)]
    /\ world s' = world failed
    /\ vector_db s' = None.
Proof.
  apply (ask_expert_not_ready (asks hi) failed).
  vm_compute. reflexivity.
Defined.


(** The document server refuses at start-up: the refusal is printed, the
    store stays unset and a question is turned away; with the model down a
    question ends in an error; a refused fetch is raised by the loader. *)
Lemma startup_failure_is_contained_witness :
  (vector_db failed = vector_db (fresh no_document)
   /\ stdout failed
      = stdout (fresh no_document)
        ++ [u "🚀 Загрузка базы знаний...";
            u "❌ Ошибка при инициализации базы знаний: "
            ++ exc_str (ExternalError refused)])
  /\ (vector_db (started no_document) = None
      /\ fst (ask_expert (asks hi) (started no_document))
         = Err (HTTPException 503 not_ready_detail))
  /\ (exists e', fst (handle (PostAsk (asks hi)) (with_world (model_down healthy) ready))
                 = Err e')
  /\ fst (load_document_text doc_url (fresh no_document))
     = Err (ExternalError refused).
Proof.
  pose proof (@startup_failure_is_contained _ _ _ _ _ collaborators)
    as (_ & Hstart & Hserve & Hroute & Hload & _).
  split; [|split; [|split]].
  - apply (Hstart (fresh no_document)
             [Called (HttpGet (export_url doc_id));
              Raised (ExternalError refused)]
             (ExternalError refused)).
    + vm_compute. reflexivity.
    + right. left. reflexivity.
  - apply (Hserve no_document (ExternalError refused) (asks hi)).
    vm_compute. right. left. reflexivity.
  - apply (Hroute (PostAsk (asks hi)) (with_world (model_down healthy) ready)
             (skipn 5 (trace (snd (handle (PostAsk (asks hi))
                                     (with_world (model_down healthy) ready)))))
             (ExternalError rate_limit)).
    + vm_compute. reflexivity.
    + vm_compute. do 4 right. left. reflexivity.
  - apply (Hload doc_url (fresh no_document)
             [Called (HttpGet (export_url doc_id));
              Raised (ExternalError refused)]
             (ExternalError refused)).
    + vm_compute. reflexivity.
    + right. left. reflexivity.
Defined.

(** A question before the store exists, and one the model fails on: both
    are counted. *)
Lemma rejected_requests_are_counted_witness :
  ask_expert (asks hi) failed
  = (Err (HTTPException 503 not_ready_detail),
     log [Raised (HTTPException 503 not_ready_detail)] (increment failed))
  /\ (fst (ask_expert (asks hi) (with_world (model_down healthy) ready))
      = Err (HTTPException 500 (processing_detail (ExternalError rate_limit)))
      /\ total_requests_count (snd (ask_expert (asks hi) (with_world (model_down healthy) ready)))
         = (total_requests_count (with_world (model_down healthy) ready) + 1)%Z).
Proof.
  split.
  - apply (proj1 (rejected_requests_are_counted (asks hi) failed)).
    vm_compute. reflexivity.
  - apply (proj1 (proj2 (rejected_requests_are_counted
                           (asks hi) (with_world (model_down healthy) ready)))
             the_store (ExternalError rate_limit)
             (snd (ask_try the_store (asks hi)
                     (increment (with_world (model_down healthy) ready)))));
      vm_compute; reflexivity.
Defined.

(** A healthy start-up: fetch, split with 1000 and 200, embed, index. *)
Lemma build_chunks_embeds_indexes_witness :
  vector_db (snd (lifespan_startup (fresh healthy))) = Some the_store
  /\ trace (snd (lifespan_startup (fresh healthy)))
     = trace (fresh healthy) ++
       [Called (HttpGet (export_url doc_id));
        Called (SplitDocuments 1000 200 [airports]);
        Called (NewEmbeddings API_KEY BASE_URL);
        Called (EmbedDocuments (map page_content [the_document]));
        Called (IndexBuild (map page_content [the_document])
                           [embed airports_stripped])].
Proof.
  apply (proj1 (@build_chunks_embeds_indexes _ _ _ _ _ collaborators)
           (fresh healthy) (doc airports) healthy
           [the_document] healthy tt healthy
           [embed airports_stripped] healthy the_store healthy);
    try (vm_compute; reflexivity).
  cbn. lia.
Defined.

(** The embedding provider down, then the chat model down. *)
Lemma provider_failure_is_processing_error_witness :
  fst (ask_expert (asks hi) (with_world (provider_down healthy) ready))
  = Err (HTTPException 500
           (processing_detail (ExternalError unreachable)))
  /\ fst (ask_expert (asks hi) (with_world (model_down healthy) ready))
     = Err (HTTPException 500 (processing_detail (ExternalError rate_limit))).
Proof.
  split.
  - assert (Hdb : vector_db (with_world (provider_down healthy) ready) = Some the_store)
      by (vm_compute; reflexivity).
    apply (proj1 (proj2 (provider_failure_is_processing_error (asks hi) _ _ Hdb))
             (ExternalError unreachable) (provider_down healthy)).
    vm_compute. reflexivity.
  - assert (Hdb : vector_db (with_world (model_down healthy) ready) = Some the_store)
      by (vm_compute; reflexivity).
    apply (proj1 (proj2 (proj2 (provider_failure_is_processing_error (asks hi) _ _ Hdb)))
             (embed hi) (model_down healthy) [the_document] (model_down healthy)
             tt (model_down healthy) (ExternalError rate_limit) (model_down healthy));
      vm_compute; reflexivity.
Defined.

(** The clock answers: the statistics show the counter. *)
Lemma request_counter_monotone_witness :
  fst (get_stats ready) = Ok (Stats (total_requests_count ready) (str_of_int 0)).
Proof.
  pose proof (@request_counter_monotone _ _ _ _ _ collaborators) as (_ & _ & _ & Hstats & _).
  apply (Hstats ready (str_of_int 0) (tick healthy)).
  vm_compute. reflexivity.
Defined.

(** A link without an id is refused before any fetch; [doc_url] has an id
    and its export is fetched; the export of a document the server does
    not have comes back 404 and is raised. *)
Lemma load_document_text_checks_link_witness :
  load_document_text plain_link (fresh healthy)
  = (Err (ValueError (u "Некорректная ссылка на Google Doc")),
     log [Raised (ValueError (u "Некорректная ссылка на Google Doc"))] (fresh healthy))
  /\ fst (load_document_text doc_url (fresh healthy)) = Ok airports
  /\ fst (load_document_text other_link (fresh healthy))
     = Err (HTTPStatusError not_found).
Proof.
  split; [|split].
  - apply (proj1 (load_document_text_checks_link plain_link (fresh healthy))).
    apply re_search_None. vm_compute. reflexivity.
  - assert (Hseg : has_segment doc_url).
    { exists (firstn 32 doc_url), doc_id, [].
      split; [vm_compute; reflexivity|]. split; [discriminate | vm_compute; reflexivity]. }
    destruct (proj2 (load_document_text_checks_link doc_url (fresh healthy)) Hseg)
      as (pre & id & post & _ & _ & _ & Hid & _ & _ & Hok).
    assert (E : id = doc_id).
    { assert (Hd : re_search doc_url = Some doc_id) by (vm_compute; reflexivity).
      rewrite Hd in Hid. injection Hid as Hid. symmetry. exact Hid. }
    subst id.
    apply (proj1 (Hok (doc airports) healthy ltac:(vm_compute; reflexivity))).
    cbn. lia.
  - assert (Hseg : has_segment other_link).
    { exists (firstn 32 other_link), other_id, (skipn 49 other_link).
      split; [vm_compute; reflexivity|]. split; [discriminate | vm_compute; reflexivity]. }
    destruct (proj2 (load_document_text_checks_link other_link (fresh healthy)) Hseg)
      as (pre & id & post & _ & _ & _ & Hid & _ & _ & Hok).
    assert (E : id = other_id).
    { assert (Hd : re_search other_link = Some other_id) by (vm_compute; reflexivity).
      rewrite Hd in Hid. injection Hid as Hid. symmetry. exact Hid. }
    subst id.
    apply (proj2 (Hok not_found healthy ltac:(vm_compute; reflexivity))).
    right. cbn. lia.
Defined.

(** Of the three chunks the query at [0.9,0.1] with [k = 2] returns the
    one at [1,0], then the one at [1,1]. *)
Lemma query_deterministic_witness :
  VectorIndex.query VectorIndex.l2 three_chunks near_first 2
  = VectorIndex.Found
      (map (VectorIndex.hit VectorIndex.l2 three_chunks near_first) [0%nat; 2%nat]).
Proof.
  apply (proj2 (query_deterministic VectorIndex.l2 three_chunks near_first 2)).
  - apply (proj1 (query_deterministic VectorIndex.l2 three_chunks near_first 2)).
  - exists [0%nat; 2%nat]. split; [|reflexivity].
    constructor.
    + intros p [E|[E|[]]]; subst p; cbn; lia.
    + reflexivity.
    + apply SSorted_cons; [apply SSorted_cons; [apply SSorted_nil | apply Forall_nil]|].
      apply Forall_cons; [|apply Forall_nil].
      left. vm_compute. reflexivity.
    + intros p q Hp Hq Hout.
      destruct q as [|[|[|q]]].
      * exfalso. apply Hout. left. reflexivity.
      * destruct Hp as [E|[E|[]]]; subst p; left; vm_compute; reflexivity.
      * exfalso. apply Hout. right. left. reflexivity.
      * cbn in Hq. lia.
Defined.

(** ** Further runs *)

Lemma ask_expert_answers_witness :
  fst (ask_expert (asks hi) ready) = Ok (Answer (Some yes)).
Proof.
  rewrite (ask_expert_answers (asks hi) ready the_store (embed hi) healthy
             [the_document] healthy tt healthy
             {| message_content := Some yes |} [] healthy);
    vm_compute; reflexivity.
Defined.

Lemma no_choice_is_processing_error_witness :
  fst (ask_expert (asks hi) (with_world (no_choices healthy) ready))
  = Err (HTTPException 500 (processing_detail (IndexError index_out_of_range)))
  /\ total_requests_count (snd (ask_expert (asks hi) (with_world (no_choices healthy) ready)))
     = (total_requests_count (with_world (no_choices healthy) ready) + 1)%Z
  /\ vector_db (snd (ask_expert (asks hi) (with_world (no_choices healthy) ready)))
     = Some the_store.
Proof.
  apply (no_choice_is_processing_error
           (asks hi) (with_world (no_choices healthy) ready) the_store (embed hi)
           (no_choices healthy) [the_document] (no_choices healthy) tt
           (no_choices healthy) (no_choices healthy));
    vm_compute; reflexivity.
Defined.

Lemma ask_expert_raises_only_http_witness :
  HTTPException 500 (processing_detail (ExternalError rate_limit))
  = HTTPException 503 not_ready_detail
  <-> vector_db (with_world (model_down healthy) ready) = None.
Proof.
  assert (H : fst (ask_expert (asks hi) (with_world (model_down healthy) ready))
              = Err (HTTPException 500 (processing_detail (ExternalError rate_limit))))
    by (vm_compute; reflexivity).
  exact (proj2 (ask_expert_raises_only_http
                  (asks hi) (with_world (model_down healthy) ready) _ H)).
Defined.

Lemma not_ready_stays_not_ready_witness :
  nth_error (fst (serve [GetStats; PostAsk (asks hi); GetRoot; PostAsk (asks hi)] failed)) 3
  = Some (Err (HTTPException 503 not_ready_detail)).
Proof.
  assert (H : vector_db failed = None) by (vm_compute; reflexivity).
  apply (proj1 (not_ready_stays_not_ready
                  [GetStats; PostAsk (asks hi); GetRoot; PostAsk (asks hi)] failed H)
           3%nat (asks hi)).
  reflexivity.
Defined.

Lemma ready_never_answers_not_ready_witness :
  (exists a,
      nth_error (fst (serve [PostAsk (asks hi); PostAsk (asks hi)]
                        (with_world (model_down healthy) ready))) 1
      = Some (Ok (Answer a)))
  \/ (exists e0,
         nth_error (fst (serve [PostAsk (asks hi); PostAsk (asks hi)]
                           (with_world (model_down healthy) ready))) 1
         = Some (Err (HTTPException 500 (processing_detail e0)))).
Proof.
  apply (ready_never_answers_not_ready
           [PostAsk (asks hi); PostAsk (asks hi)]
           (with_world (model_down healthy) ready) the_store 1%nat (asks hi)).
  - vm_compute. reflexivity.
  - reflexivity.
Defined.

Lemma pages_show_questions_so_far_witness :
  nth_error (fst (run_app ([PostAsk (asks hi); GetRoot; PostAsk (asks hi)]
                             ++ GetStats :: [GetRoot]) healthy)) 3
  = Some (Ok (Stats 2 (str_of_int 0))).
Proof.
  apply (proj2 (pages_show_questions_so_far
                  [PostAsk (asks hi); GetRoot; PostAsk (asks hi)] [GetRoot] healthy)
           (str_of_int 0) (tick healthy)).
  vm_compute. reflexivity.
Defined.

Lemma at_most_one_model_call_per_question_witness :
  (calls is_chat_completion
     (skipn 5 (trace (snd (serve [PostAsk (asks hi); GetStats; PostAsk (asks hi)] ready))))
   <= 2)%nat.
Proof.
  assert (H : trace (snd (serve [PostAsk (asks hi); GetStats; PostAsk (asks hi)] ready))
              = trace ready
                ++ skipn 5 (trace (snd (serve [PostAsk (asks hi); GetStats;
                                               PostAsk (asks hi)] ready))))
    by (vm_compute; reflexivity).
  exact (proj2 (proj2 (proj1 (at_most_one_model_call_per_question
                                [PostAsk (asks hi); GetStats; PostAsk (asks hi)] ready _ H)))).
Defined.

Lemma google_doc_link_id_witness :
  re_search (export_prefix ++ doc_id ++ edit_suffix) = Some doc_id
  /\ re_search (export_url doc_id) = Some doc_id.
Proof.
  assert (Hne : doc_id <> []) by discriminate.
  assert (Hall : forallb is_id_char doc_id = true) by (vm_compute; reflexivity).
  destruct (google_doc_link_id doc_id Hne Hall) as [Hlink Hexport].
  split; [|exact Hexport].
  apply Hlink. intros c rest E. injection E as E _. subst c. reflexivity.
Defined.

Lemma context_ignores_outer_whitespace_witness :
  make_context [padded_document; the_document]
  = join [nl; nl] [airports_stripped; airports_stripped].
Proof.
  apply (proj2 (proj2 (proj2 (proj2 (proj2 context_ignores_outer_whitespace))))).
  constructor; [|constructor; [|constructor]].
  - exists [32%N; 32%N], [32%N; 32%N]. repeat split; vm_compute; reflexivity.
  - exists [], []. repeat split; vm_compute; reflexivity.
Defined.
